(** * Average-sales report: the SQL pipeline of [Расчет_средняя_продажа.py]

    The program loads three groups of files into a DuckDB database and runs
    four SQL statements ([Stocks], [Sales], [combined_view], [Averages])
    followed by a CSV export.  Tables are bags of rows (lists), every column
    is nullable ([option]), and predicates follow SQL's three-valued logic.

    Schema conventions taken from the queries:
    - store and item codes are text;
    - [dt] of the stock feed is a calendar date (it is compared and joined
      without a cast), ["Дата"] of the indicator feed is a timestamp that the
      query casts with [::DATE];
    - quantities and amounts are integers; [AVG] of an integer column is a
      DOUBLE. *)

From Stdlib Require Import ZArith QArith Ascii String SpecFloat.
From stdpp Require Import gmap strings list fin_maps.

Local Close Scope Q_scope.
Local Open Scope string_scope.
Local Open Scope Z_scope.

(** ** DOUBLE values *)

(** IEEE 754 binary64; conversions and operations round to nearest, ties
    to even. *)
Module DOUBLE.
Definition t : Type := spec_float.

Definition of_Z (z : Z) : t := binary_normalize 53 1024 z 0 false.

Definition div (x y : t) : t := SFdiv 53 1024 x y.

(** The number a finite DOUBLE stands for, as a reduced fraction. *)
Definition value (x : t) : option Q :=
  match x with
  | S754_zero _ => Some (Qmake 0 1)
  | S754_finite s m (Zneg e) => Some (Qred (Qmake (if s then Zneg m else Zpos m) (2 ^ e)))
  | S754_finite s m e => Some (Qmake ((if s then Zneg m else Zpos m) * 2 ^ e) 1)
  | _ => None
  end.
End DOUBLE.

(** ** SQL scalar semantics *)

Module SQL.

(** A predicate value: [Some true], [Some false] or NULL. *)
Definition bool3 := option bool.

Definition and3 (a b : bool3) : bool3 :=
  match a, b with
  | Some false, _ | _, Some false => Some false
  | Some true, Some true => Some true
  | _, _ => None
  end.

Definition or3 (a b : bool3) : bool3 :=
  match a, b with
  | Some true, _ | _, Some true => Some true
  | Some false, Some false => Some false
  | _, _ => None
  end.

(** A WHERE or ON clause keeps a row only when the condition is TRUE. *)
Definition holds (c : bool3) : bool :=
  match c with Some true => true | _ => false end.

Definition eq3 {A} `{EqDecision A} (a b : option A) : bool3 :=
  match a, b with
  | Some x, Some y => Some (bool_decide (x = y))
  | _, _ => None
  end.

Definition gt (a b : option Z) : bool3 :=
  match a, b with
  | Some x, Some y => Some (y <? x)
  | _, _ => None
  end.

Definition coalesce {A} (a b : option A) : option A :=
  match a with Some _ => a | None => b end.

(** [x IN (subquery)]: TRUE on a match, NULL when there is no match but
    [x] or a subquery value is NULL, FALSE otherwise. *)
Definition in_ {A} `{EqDecision A} (x : option A) (sub : list (option A)) : bool3 :=
  match sub with
  | [] => Some false
  | _ =>
      match x with
      | None => None
      | Some v =>
          if existsb (fun y => bool_decide (y = Some v)) sub then Some true
          else if existsb (fun y => bool_decide (y = None)) sub then None
          else Some false
      end
  end.

(** Aggregates skip NULLs; over no value at all they are NULL. *)
Definition non_null {A} (l : list (option A)) : list A := omap id l.

Definition total (l : list Z) : Z := foldr Z.add 0 l.

Definition sum (l : list (option Z)) : option Z :=
  match non_null l with
  | [] => None
  | vs => Some (total vs)
  end.

Definition max (l : list (option Z)) : option Z :=
  match non_null l with
  | [] => None
  | v :: vs => Some (foldr Z.max v vs)
  end.

(** AVG of an integer column: the sum divided by the count, as DOUBLE. *)
Definition avg (l : list (option Z)) : option DOUBLE.t :=
  match non_null l with
  | [] => None
  | vs => Some (DOUBLE.div (DOUBLE.of_Z (total vs)) (DOUBLE.of_Z (Z.of_nat (length vs))))
  end.

Definition count_star {A} (l : list A) : Z := Z.of_nat (length l).

(** GROUP BY: one group per distinct key (NULL keys form one group), each
    with the rows that carry the key. *)
Definition group_by {K A} `{EqDecision K} (key : A → K) (l : list A) : list (K * list A) :=
  map (fun k => (k, List.filter (fun r => bool_decide (key r = k)) l))
      (remove_dups (map key l)).

(** FULL OUTER JOIN: every matching pair, every left row without a match
    padded with NULLs, every right row without a match padded with NULLs. *)
Definition full_outer_join {L R} (on : L → R → bool3) (ls : list L) (rs : list R)
  : list (option L * option R) :=
  flat_map (fun l =>
              match List.filter (fun r => holds (on l r)) rs with
              | [] => [(Some l, None)]
              | ms => map (fun r => (Some l, Some r)) ms
              end) ls
  ++ map (fun r => (None, Some r))
         (List.filter (fun r => negb (existsb (fun l => holds (on l r)) ls)) rs).

(** A column of a side of an outer join: NULL when the side is absent. *)
Definition col {R A} (side : option R) (f : R → option A) : option A :=
  match side with Some r => f r | None => None end.

End SQL.

(** ** Dates *)

Record date := Date { year : Z; month : Z; day : Z }.

Global Instance date_eq_dec : EqDecision date.
Proof. solve_decision. Defined.

Definition date_leb (a b : date) : bool :=
  (year a <? year b)
  || ((year a =? year b)
      && ((month a <? month b) || ((month a =? month b) && (day a <=? day b)))).

(** [x BETWEEN lo AND hi] is [x >= lo AND x <= hi]. *)
Definition date_between (x lo hi : option date) : SQL.bool3 :=
  SQL.and3
    (match x, lo with Some d, Some l => Some (date_leb l d) | _, _ => None end)
    (match x, hi with Some d, Some h => Some (date_leb d h) | _, _ => None end).

(** A timestamp is a calendar date and a time of day in seconds. *)
Record timestamp := Timestamp { ts_date : date; ts_seconds : Z }.

(** [t::DATE] *)
Definition cast_date (t : option timestamp) : option date :=
  match t with Some x => Some (ts_date x) | None => None end.

(** ** Source tables *)

Module parquet_data.
Record row := Row {
  final_store_id : option string;
  final_item_id : option string;
  dt : option date;
  stock : option Z }.
End parquet_data.

Module trade_points.
Record row := Row {
  Код_склада : option string;
  Тип_склада : option string }.
End trade_points.

Module indicators.
Record row := Row {
  Код_Склада : option string;
  Код_товара : option string;
  Дата : option timestamp;
  Отгрузки_шт : option Z;
  Отгрузки_руб : option Z }.
End indicators.

(** ** Store Filter Stage: [CREATE OR REPLACE TABLE Stocks] *)

Module Stocks.
Record row := Row {
  Store : option string;
  Item : option string;
  Dt : option date;
  Stock_pc : option Z }.

Definition store_subquery (tp : list trade_points.row) : list (option string) :=
  map trade_points.Код_склада
      (List.filter (fun t => SQL.holds (SQL.eq3 (trade_points.Тип_склада t)
                                                (Some "Маленький склад"))) tp).

Definition window_start : date := Date 2025 1 14.
Definition window_end : date := Date 2025 3 31.

Definition where_ (tp : list trade_points.row) (r : parquet_data.row) : SQL.bool3 :=
  SQL.and3 (SQL.in_ (parquet_data.final_store_id r) (store_subquery tp))
           (date_between (parquet_data.dt r) (Some window_start) (Some window_end)).

Definition select (r : parquet_data.row) : row :=
  {| Store := parquet_data.final_store_id r;
     Item := parquet_data.final_item_id r;
     Dt := parquet_data.dt r;
     Stock_pc := parquet_data.stock r |}.

Definition query (input : list parquet_data.row) (tp : list trade_points.row) : list row :=
  map select (List.filter (fun r => SQL.holds (where_ tp r)) input).
End Stocks.

(** ** Sales Aggregation Stage: [CREATE OR REPLACE TABLE Sales] *)

Module Sales.
Record row := Row {
  Store : option string;
  Item : option string;
  Dt : option date;
  Sales_pc : option Z;
  Sales_rub : option Z }.

Definition store_subquery (tp : list trade_points.row) : list (option string) :=
  map trade_points.Код_склада
      (List.filter (fun t => SQL.holds (SQL.eq3 (trade_points.Тип_склада t)
                                                (Some "Маленький склад"))) tp).

Definition window_start : date := Date 2025 1 14.
Definition window_end : date := Date 2025 3 31.

Definition where_ (tp : list trade_points.row) (r : indicators.row) : SQL.bool3 :=
  SQL.and3 (SQL.in_ (indicators.Код_Склада r) (store_subquery tp))
           (date_between (cast_date (indicators.Дата r))
                         (Some window_start) (Some window_end)).

(** [GROUP BY 1, 2, 3]: the first three output columns. *)
Definition group_key (r : indicators.row) : option string * option string * option date :=
  (indicators.Код_Склада r, indicators.Код_товара r, cast_date (indicators.Дата r)).

Definition select (g : (option string * option string * option date) * list indicators.row) : row :=
  let '((store, item, d), rows) := g in
  {| Store := store;
     Item := item;
     Dt := d;
     Sales_pc := SQL.sum (map indicators.Отгрузки_шт rows);
     Sales_rub := SQL.sum (map indicators.Отгрузки_руб rows) |}.

Definition query (ind : list indicators.row) (tp : list trade_points.row) : list row :=
  map select
      (SQL.group_by group_key (List.filter (fun r => SQL.holds (where_ tp r)) ind)).
End Sales.

(** ** Combiner Stage: [CREATE OR REPLACE TEMP VIEW combined_view] *)

Module combined_view.
Record row := Row {
  Dt : option date;
  Store : option string;
  Item : option string;
  Sales_pc : option Z;
  Sales_rub : option Z;
  Stock_pc : option Z }.

Definition joined := (option Sales.row * option Stocks.row)%type.

Definition on (s : Sales.row) (st : Stocks.row) : SQL.bool3 :=
  SQL.and3 (SQL.and3 (SQL.eq3 (Sales.Dt s) (Stocks.Dt st))
                     (SQL.eq3 (Sales.Store s) (Stocks.Store st)))
           (SQL.eq3 (Sales.Item s) (Stocks.Item st)).

Definition from (sales : list Sales.row) (stocks : list Stocks.row) : list joined :=
  SQL.full_outer_join on sales stocks.

(** [WHERE s.Sales_pc > 0 OR st.Stock_pc > 0], on the columns of the
    join, before any COALESCE. *)
Definition where_ (j : joined) : SQL.bool3 :=
  SQL.or3 (SQL.gt (SQL.col j.1 Sales.Sales_pc) (Some 0))
          (SQL.gt (SQL.col j.2 Stocks.Stock_pc) (Some 0)).

Definition select (j : joined) : row :=
  {| Dt := SQL.coalesce (SQL.col j.1 Sales.Dt) (SQL.col j.2 Stocks.Dt);
     Store := SQL.coalesce (SQL.col j.1 Sales.Store) (SQL.col j.2 Stocks.Store);
     Item := SQL.coalesce (SQL.col j.1 Sales.Item) (SQL.col j.2 Stocks.Item);
     Sales_pc := SQL.coalesce (SQL.col j.1 Sales.Sales_pc) (Some 0);
     Sales_rub := SQL.coalesce (SQL.col j.1 Sales.Sales_rub) (Some 0);
     Stock_pc := SQL.coalesce (SQL.col j.2 Stocks.Stock_pc) (Some 0) |}.

Definition query (sales : list Sales.row) (stocks : list Stocks.row) : list row :=
  map select (List.filter (fun j => SQL.holds (where_ j)) (from sales stocks)).
End combined_view.

(** ** Averaging Stage: [CREATE OR REPLACE TABLE Averages] *)

Module Averages.
Record row := Row {
  Store : option string;
  Item : option string;
  Avg_sales_pc : option DOUBLE.t;
  Avg_sales_rub : option DOUBLE.t;
  Days_with_data : Z;
  Total_sales_rub : option Z;
  Total_sales_pc : option Z;
  Max_stock_pc : option Z }.

(** Column names of the table, in SELECT order. *)
Definition columns : list string :=
  ["Store"; "Item"; "Avg_sales_pc"; "Avg_sales_rub"; "Days_with_data";
   "Total_sales_rub"; "Total_sales_pc"; "Max_stock_pc"].

Definition group_key (r : combined_view.row) : option string * option string :=
  (combined_view.Store r, combined_view.Item r).

Definition select (g : (option string * option string) * list combined_view.row) : row :=
  let '((store, item), rows) := g in
  {| Store := store;
     Item := item;
     Avg_sales_pc := SQL.avg (map combined_view.Sales_pc rows);
     Avg_sales_rub := SQL.avg (map combined_view.Sales_rub rows);
     Days_with_data := SQL.count_star rows;
     Total_sales_rub := SQL.sum (map combined_view.Sales_rub rows);
     Total_sales_pc := SQL.sum (map combined_view.Sales_pc rows);
     Max_stock_pc := SQL.max (map combined_view.Stock_pc rows) |}.

Definition query (cv : list combined_view.row) : list row :=
  map select (SQL.group_by group_key cv).
End Averages.

(** ** The database, the input files and the connection *)

(** Identifiers are matched without regard to the case of the ASCII
    letters: the catalog is keyed by the lower-cased name.  Names are
    plain identifiers, as those [main] passes. *)
Definition lower (c : ascii) : ascii :=
  let n := N_of_ascii c in
  if ((65 <=? n) && (n <=? 90))%N then ascii_of_N (n + 32) else c.

Fixpoint catalog_key (name : string) : string :=
  match name with
  | EmptyString => EmptyString
  | String c rest => String (lower c) (catalog_key rest)
  end.
Arguments catalog_key : simpl never.

(** Table names in the database. *)
Definition INPUT_TABLE_NAME : string := "parquet_data".
Definition TRADE_POINTS_TABLE_NAME : string := "trade_points".
Definition INDICATORS_TABLE_NAME : string := "indicators".

Inductive DataTypesEnum := parquet | csv.

Global Instance DataTypesEnum_eq_dec : EqDecision DataTypesEnum.
Proof. solve_decision. Defined.

(** The content of a table or of a data file: rows of one of the schemas
    the queries work with. *)
Inductive relation :=
| parquet_data_rows (rows : list parquet_data.row)
| trade_points_rows (rows : list trade_points.row)
| indicators_rows (rows : list indicators.row)
| Stocks_rows (rows : list Stocks.row)
| Sales_rows (rows : list Sales.row)
| Averages_rows (rows : list Averages.row).

(** What a path refers to: a data file of some format, or something that
    exists but cannot be read as data. *)
Inductive file :=
| data_file (format : DataTypesEnum) (content : relation)
| unreadable.

Inductive exception :=
| FileNotFoundError (message : string)
| DuckDBError (statement : string).

Inductive statement :=
| DROP_TABLE_IF_EXISTS (table_name : string)
| CREATE_TABLE_AS (table_name : string) (data_type : DataTypesEnum) (paths : list string)
| CREATE_OR_REPLACE_TABLE (table_name : string)
| CREATE_OR_REPLACE_TEMP_VIEW (view_name : string)
| COPY_TO (table_name : string) (filename : string).

(** An open connection: the tables of the database file, the temporary
    views of the session, and the statements issued so far. *)
Record connection := Connection {
  tables : gmap string relation;
  temp_views : gset string;
  executed : list statement }.

Inductive result (A : Type) :=
| Ok (a : A)
| Raise (e : exception).
Arguments Ok {A} a.
Arguments Raise {A} e.

(** Code that works on the connection and may raise. *)
Definition M (A : Type) : Type := connection → result A * connection.

Global Instance M_ret : MRet M := fun A a c => (Ok a, c).

Global Instance M_bind : MBind M := fun A B k m c =>
  match m c with
  | (Ok a, c') => k a c'
  | (Raise e, c') => (Raise e, c')
  end.

Definition raise {A} (e : exception) : M A := fun c => (Raise e, c).

(** Every call of [execute] is recorded before the engine runs it. *)
Definition issue (s : statement) : M unit :=
  fun c => (Ok tt, {| tables := tables c; temp_views := temp_views c;
                      executed := executed c ++ [s] |}).

Definition get_connection : M connection := fun c => (Ok c, c).

Definition get_tables : M (gmap string relation) := fun c => (Ok (tables c), c).

Definition put_table (name : string) (r : relation) : M unit :=
  fun c => (Ok tt, {| tables := <[catalog_key name := r]> (tables c); temp_views := temp_views c;
                      executed := executed c |}).

Definition drop_table (name : string) : M unit :=
  fun c => (Ok tt, {| tables := delete (catalog_key name) (tables c); temp_views := temp_views c;
                      executed := executed c |}).

Definition put_temp_view (name : string) : M unit :=
  fun c => (Ok tt, {| tables := tables c; temp_views := {[catalog_key name]} ∪ temp_views c;
                      executed := executed c |}).

(** *** Reading files: [read_parquet(paths)] and [read_csv_auto(paths)] *)

Definition read_file (fs : gmap string file) (data_type : DataTypesEnum) (path : string)
  : option relation :=
  match fs !! path with
  | Some (data_file format content) =>
      if decide (format = data_type) then Some content else None
  | _ => None
  end.

(** Rows of files with the same columns are put together; files with
    different columns cannot be read as one table. *)
Definition union_all (a b : relation) : option relation :=
  match a, b with
  | parquet_data_rows x, parquet_data_rows y => Some (parquet_data_rows (x ++ y))
  | trade_points_rows x, trade_points_rows y => Some (trade_points_rows (x ++ y))
  | indicators_rows x, indicators_rows y => Some (indicators_rows (x ++ y))
  | Stocks_rows x, Stocks_rows y => Some (Stocks_rows (x ++ y))
  | Sales_rows x, Sales_rows y => Some (Sales_rows (x ++ y))
  | Averages_rows x, Averages_rows y => Some (Averages_rows (x ++ y))
  | _, _ => None
  end.

Fixpoint read_files (fs : gmap string file) (data_type : DataTypesEnum) (paths : list string)
  : option relation :=
  match paths with
  | [] => None
  | [path] => read_file fs data_type path
  | path :: rest =>
      match read_file fs data_type path, read_files fs data_type rest with
      | Some a, Some b => union_all a b
      | _, _ => None
      end
  end.

(** *** The statements of the loader *)

Definition execute_drop (table_name : string) : M unit :=
  issue (DROP_TABLE_IF_EXISTS table_name) ;;
  drop_table table_name.

Definition execute_create (fs : gmap string file) (table_name : string)
    (data_type : DataTypesEnum) (paths : list string) : M unit :=
  issue (CREATE_TABLE_AS table_name data_type paths) ;;
  db ← get_tables;
  match db !! catalog_key table_name with
  | Some _ => raise (DuckDBError "CREATE TABLE: table already exists")
  | None =>
      match read_files fs data_type paths with
      | None => raise (DuckDBError "CREATE TABLE: cannot read the files")
      | Some r => put_table table_name r
      end
  end.

(** ** Bulk loader *)

Fixpoint check_paths (fs : gmap string file) (paths : list string) : M unit :=
  match paths with
  | [] => mret tt
  | path :: rest =>
      match fs !! path with
      | None => raise (FileNotFoundError ("File not found: " +:+ path))
      | Some _ => check_paths fs rest
      end
  end.

Definition load_file_to_duckdb (fs : gmap string file) (paths : list string)
    (table_name : string) (data_type : DataTypesEnum) (overwrite : bool) : M unit :=
  check_paths fs paths ;;
  (if overwrite then execute_drop table_name else mret tt) ;;
  execute_create fs table_name data_type paths.

(** ** The statements of the pipeline *)

(** [CREATE OR REPLACE TABLE name AS query]: the query is evaluated on
    the connection; when it cannot be (a table it reads is missing or has
    other columns) the statement fails and nothing changes. *)
Definition create_or_replace_table (name : string)
    (query : connection → option relation) : M unit :=
  issue (CREATE_OR_REPLACE_TABLE name);;
  c ← get_connection;
  match query c with
  | Some r => put_table name r
  | None => raise (DuckDBError ("CREATE OR REPLACE TABLE " +:+ name))
  end.

Definition select_Stocks (c : connection) : option relation :=
  match tables c !! catalog_key INPUT_TABLE_NAME, tables c !! catalog_key TRADE_POINTS_TABLE_NAME with
  | Some (parquet_data_rows input), Some (trade_points_rows tp) =>
      Some (Stocks_rows (Stocks.query input tp))
  | _, _ => None
  end.

Definition select_Sales (c : connection) : option relation :=
  match tables c !! catalog_key INDICATORS_TABLE_NAME, tables c !! catalog_key TRADE_POINTS_TABLE_NAME with
  | Some (indicators_rows ind), Some (trade_points_rows tp) =>
      Some (Sales_rows (Sales.query ind tp))
  | _, _ => None
  end.

(** The view is a stored query: reading it evaluates the query on
    [Sales] and [Stocks] as they are at that moment. *)
Definition select_combined_view (c : connection) : option (list combined_view.row) :=
  if decide (catalog_key "combined_view" ∈ temp_views c) then
    match tables c !! catalog_key "Sales", tables c !! catalog_key "Stocks" with
    | Some (Sales_rows sales), Some (Stocks_rows stocks) =>
        Some (combined_view.query sales stocks)
    | _, _ => None
    end
  else None.

Definition select_Averages (c : connection) : option relation :=
  match select_combined_view c with
  | Some cv => Some (Averages_rows (Averages.query cv))
  | None => None
  end.

Definition execute_Stocks : M unit := create_or_replace_table "Stocks" select_Stocks.

Definition execute_Sales : M unit := create_or_replace_table "Sales" select_Sales.

(** Creating the view checks that [Sales] and [Stocks] are there. *)
Definition execute_combined_view : M unit :=
  issue (CREATE_OR_REPLACE_TEMP_VIEW "combined_view");;
  db ← get_tables;
  match db !! catalog_key "Sales", db !! catalog_key "Stocks" with
  | Some (Sales_rows _), Some (Stocks_rows _) => put_temp_view "combined_view"
  | _, _ => raise (DuckDBError "CREATE OR REPLACE TEMP VIEW combined_view")
  end.

Definition execute_Averages : M unit := create_or_replace_table "Averages" select_Averages.

(** ** Exporter *)

Module datetime.
Record t := Make {
  year : Z; month : Z; day : Z;
  hour : Z; minute : Z; second : Z;
  microsecond : Z }.

Definition digit (n : Z) : ascii := ascii_of_nat (48 + Z.to_nat (n mod 10)).

(** The last [width] decimal digits of [n], zero padded. *)
Fixpoint zero_pad (width : nat) (n : Z) : string :=
  match width with
  | O => ""
  | S w => zero_pad w (n / 10) +:+ String (digit n) ""
  end.

(** [strftime('%Y%m%d_%H%M%S')], for years of four digits. *)
Definition strftime (now : t) : string :=
  zero_pad 4 (year now) +:+ zero_pad 2 (month now) +:+ zero_pad 2 (day now)
  +:+ "_"
  +:+ zero_pad 2 (hour now) +:+ zero_pad 2 (minute now) +:+ zero_pad 2 (second now).
End datetime.

Definition filename (now : datetime.t) : string :=
  "avg_sales_" +:+ datetime.strftime now +:+ ".csv".

(** Options of the COPY statement. *)
Record copy_options := CopyOptions {
  FORMAT : DataTypesEnum;
  HEADER : bool;
  DELIMITER : ascii;
  QUOTE : ascii }.

Definition export_options : copy_options :=
  {| FORMAT := csv; HEADER := true; DELIMITER := ";"%char; QUOTE := "034"%char |}.

(** The CSV writer of the engine: a text value is written as it is unless
    it is empty (the text of a NULL) or holds the delimiter, the quote
    character or a line break; then it is enclosed in quote characters,
    every quote character inside doubled.  A NULL is written as nothing. *)
Module csv_writer.
Fixpoint contains (c : ascii) (s : string) : bool :=
  match s with
  | EmptyString => false
  | String x rest => bool_decide (x = c) || contains c rest
  end.

Definition needs_quote (o : copy_options) (s : string) : bool :=
  match s with
  | EmptyString => true
  | _ => contains (DELIMITER o) s || contains (QUOTE o) s
         || contains "010"%char s || contains "013"%char s
  end.

Fixpoint escape (q : ascii) (s : string) : string :=
  match s with
  | EmptyString => EmptyString
  | String x rest =>
      if bool_decide (x = q) then String q (String q (escape q rest))
      else String x (escape q rest)
  end.

Definition field (o : copy_options) (s : string) : string :=
  if needs_quote o s
  then String (QUOTE o) (escape (QUOTE o) s +:+ String (QUOTE o) "")
  else s.

Definition record (o : copy_options) (fields : list string) : string :=
  String.concat (String (DELIMITER o) "") (map (field o) fields).

(** A value of a nullable column. *)
Definition cell (o : copy_options) (v : option string) : string :=
  match v with
  | Some s => field o s
  | None => EmptyString
  end.

(** The line of one row. *)
Definition line (o : copy_options) (cells : list (option string)) : string :=
  String.concat (String (DELIMITER o) "") (map (cell o) cells).
End csv_writer.

(** The file written by COPY: its name, the header line when asked for,
    and the rows of the table. *)
Record csv_file := CsvFile {
  csv_name : string;
  csv_options : copy_options;
  csv_header : option string;
  csv_rows : list Averages.row }.




Definition execute_copy (name : string) (o : copy_options) : M csv_file :=
  issue (COPY_TO "Averages" name);;
  db ← get_tables;
  match db !! catalog_key "Averages" with
  | Some (Averages_rows rows) =>
      mret {| csv_name := name;
              csv_options := o;
              csv_header := if HEADER o
                            then Some (csv_writer.record o Averages.columns)
                            else None;
              csv_rows := rows |}
  | _ => raise (DuckDBError "COPY Averages")
  end.

(** ** The whole run *)

Definition load_all (fs : gmap string file) : M unit :=
  load_file_to_duckdb fs
    ["static/data_part_1.parquet"; "static/data_part_2.parquet";
     "static/data_part_3.parquet"; "static/data_part_4.parquet";
     "static/data_part_5.parquet"]
    INPUT_TABLE_NAME parquet true;;
  load_file_to_duckdb fs ["static/Справочник ТТ.csv"]
    TRADE_POINTS_TABLE_NAME csv true;;
  load_file_to_duckdb fs
    ["static/Данные по показателям_1.parquet"; "static/Данные по показателям_2.parquet";
     "static/Данные по показателям_3.parquet"; "static/Данные по показателям_4.parquet";
     "static/Данные по показателям_5.parquet"]
    INDICATORS_TABLE_NAME parquet true.

(** The body of the [try] block. *)
Definition main_try (fs : gmap string file) (now : datetime.t) (load_files : bool)
  : M csv_file :=
  (if load_files then load_all fs else mret tt);;
  execute_Stocks;;
  execute_Sales;;
  execute_combined_view;;
  execute_Averages;;
  execute_copy (filename now) export_options.

(** What a run leaves behind besides the database: the exception it
    logged, the file it wrote, the statements it issued. *)
Record report := Report {
  logged : option exception;
  output : option csv_file;
  statements : list statement }.

(** [main]: connect to the database file, run the body, log any
    exception, close the connection.  Temporary views end with the
    connection; the tables stay in the file. *)
Definition main (fs : gmap string file) (now : datetime.t) (load_files : bool)
    (db : gmap string relation) : report * gmap string relation :=
  let conn := {| tables := db; temp_views := ∅; executed := [] |} in
  match main_try fs now load_files conn with
  | (Ok f, c) =>
      ({| logged := None; output := Some f; statements := executed c |}, tables c)
  | (Raise e, c) =>
      ({| logged := Some e; output := None; statements := executed c |}, tables c)
  end.

(** ** The scenario of the specification *)

Module scenario.
Definition Stocks : list Stocks.row :=
  [ Stocks.Row (Some "S1") (Some "I1") (Some (Date 2025 2 1)) (Some 5);
    Stocks.Row (Some "S1") (Some "I1") (Some (Date 2025 2 2)) (Some 0) ].

Definition Sales : list Sales.row :=
  [ Sales.Row (Some "S1") (Some "I1") (Some (Date 2025 2 1)) (Some 3) (Some 30) ].
End scenario.

(** ** Example inputs *)

Module example.
Definition trade_points : list trade_points.row :=
  [ trade_points.Row (Some "S1") (Some "Маленький склад");
    trade_points.Row (Some "S2") (Some "Большой склад") ].

Definition parquet_data : list parquet_data.row :=
  [ parquet_data.Row (Some "S1") (Some "I1") (Some (Date 2025 2 1)) (Some 5);
    parquet_data.Row (Some "S1") (Some "I1") (Some (Date 2025 2 2)) (Some 0);
    parquet_data.Row (Some "S2") (Some "I1") (Some (Date 2025 2 1)) (Some 7);
    parquet_data.Row (Some "S1") (Some "I1") (Some (Date 2025 4 1)) (Some 9) ].

Definition indicators : list indicators.row :=
  [ indicators.Row (Some "S1") (Some "I1")
      (Some (Timestamp (Date 2025 2 1) 36000)) (Some 1) (Some 10);
    indicators.Row (Some "S1") (Some "I1")
      (Some (Timestamp (Date 2025 2 1) 61200)) (Some 2) (Some 20) ].

Definition Stocks_row : Stocks.row :=
  Stocks.Row (Some "S1") (Some "I1") (Some (Date 2025 2 1)) (Some 5).

Definition Sales_row : Sales.row :=
  Sales.Row (Some "S1") (Some "I1") (Some (Date 2025 2 1)) (Some 3) (Some 30).

Definition combined_row : combined_view.row :=
  combined_view.Row (Some (Date 2025 2 1)) (Some "S1") (Some "I1")
    (Some 3) (Some 30) (Some 5).

Definition Averages_row : Averages.row :=
  Averages.Row (Some "S1") (Some "I1") (Some (DOUBLE.of_Z 3)) (Some (DOUBLE.of_Z 30)) 1
    (Some 30) (Some 3) (Some 5).




(** Sales with a return and no stock record for the day. *)
Definition returned : Sales.row :=
  Sales.Row (Some "S1") (Some "I1") (Some (Date 2025 2 3)) (Some (-1)) (Some (-10)).
End example.

(** A database that already holds the three loaded tables, an empty one,
    a directory with the eleven input files, and a clock reading. *)
Module example_run.
Definition loaded : gmap string relation :=
  <[catalog_key INDICATORS_TABLE_NAME := indicators_rows example.indicators]>
    (<[catalog_key TRADE_POINTS_TABLE_NAME := trade_points_rows example.trade_points]>
       (<[catalog_key INPUT_TABLE_NAME := parquet_data_rows example.parquet_data]> ∅)).

Definition files : gmap string file :=
  list_to_map
    [ ("static/data_part_1.parquet", data_file parquet (parquet_data_rows example.parquet_data));
      ("static/data_part_2.parquet", data_file parquet (parquet_data_rows []));
      ("static/data_part_3.parquet", data_file parquet (parquet_data_rows []));
      ("static/data_part_4.parquet", data_file parquet (parquet_data_rows []));
      ("static/data_part_5.parquet", data_file parquet (parquet_data_rows []));
      ("static/Справочник ТТ.csv", data_file csv (trade_points_rows example.trade_points));
      ("static/Данные по показателям_1.parquet",
        data_file parquet (indicators_rows example.indicators));
      ("static/Данные по показателям_2.parquet", data_file parquet (indicators_rows []));
      ("static/Данные по показателям_3.parquet", data_file parquet (indicators_rows []));
      ("static/Данные по показателям_4.parquet", data_file parquet (indicators_rows []));
      ("static/Данные по показателям_5.parquet", data_file parquet (indicators_rows [])) ].

Definition now : datetime.t := datetime.Make 2025 3 7 9 5 1 123456.
Definition later : datetime.t := datetime.Make 2025 3 7 9 5 42 7.

Definition averages : list Averages.row :=
  [ Averages.Row (Some "S1") (Some "I1") (Some (DOUBLE.of_Z 3)) (Some (DOUBLE.of_Z 30)) 1
      (Some 30) (Some 3) (Some 5) ].

Definition connection0 : connection :=
  {| tables := loaded; temp_views := ∅; executed := [] |}.

Definition exported : csv_file :=
  {| csv_name := "avg_sales_20250307_090501.csv";
     csv_options := export_options;
     csv_header :=
       Some "Store;Item;Avg_sales_pc;Avg_sales_rub;Days_with_data;Total_sales_rub;Total_sales_pc;Max_stock_pc";
     csv_rows := averages |}.
End example_run.

(** ** Vocabulary of the properties *)

(** Calendar order of dates. *)
Definition date_le (a b : date) : Prop :=
  year a < year b
  ∨ (year a = year b ∧ (month a < month b ∨ (month a = month b ∧ day a ≤ day b))).

(** [d] lies in the window from [lo] to [hi], both ends included. *)
Definition within (lo hi d : date) : Prop := date_le lo d ∧ date_le d hi.

(** The stores of the directory whose outlet-class label is [class]. *)
Definition outlet_class_set (class : string) (tp : list trade_points.row) (s : string) : Prop :=
  ∃ t, In t tp ∧ trade_points.Код_склада t = Some s ∧ trade_points.Тип_склада t = Some class.

(** A joined row has a signal when, after coalescing, its sales units or
    its stock quantity is strictly positive. *)
Definition has_signal (r : combined_view.row) : Prop :=
  ∃ s k, combined_view.Sales_pc r = Some s ∧ combined_view.Stock_pc r = Some k
         ∧ (0 < s ∨ 0 < k).

(** A joined row is all-zero when, after coalescing, both are zero. *)
Definition all_zero (r : combined_view.row) : Prop :=
  combined_view.Sales_pc r = Some 0 ∧ combined_view.Stock_pc r = Some 0.

(** A write to the database: a table set to some rows, or removed. *)
Definition write : Type := string * option relation.

Definition apply_write (db : gmap string relation) (w : write) : gmap string relation :=
  match w.2 with
  | Some r => <[w.1 := r]> db
  | None => delete w.1 db
  end.

Definition apply_writes (ws : list write) (db : gmap string relation)
  : gmap string relation :=
  foldl apply_write db ws.

(** Two connections agree on the tables [known] and on the session's
    views. *)
Definition agree (known : gset string) (c1 c2 : connection) : Prop :=
  temp_views c1 = temp_views c2
  ∧ ∀ k, k ∈ known → tables c1 !! k = tables c2 !! k.

(** Both raise the same exception, or both return, with results related
    by [Q] and connections that agree on [known]. *)
Definition same_outcome {A} (Q : A → A → Prop) (known : gset string)
    (o1 o2 : result A * connection) : Prop :=
  match o1.1, o2.1 with
  | Ok a1, Ok a2 => Q a1 a2 ∧ agree known o1.2 o2.2
  | Raise e1, Raise e2 => e1 = e2
  | _, _ => False
  end.

(** [m1] and [m2] look at the database only through the tables [known]:
    from connections that agree on them they end alike, after the same
    writes. *)
Definition oblivious {A} (known : gset string) (Q : A → A → Prop)
    (known' : gset string) (m1 m2 : M A) : Prop :=
  ∀ c1 c2, agree known c1 c2 →
    ∃ ws, tables (m1 c1).2 = apply_writes ws (tables c1)
          ∧ tables (m2 c2).2 = apply_writes ws (tables c2)
          ∧ same_outcome Q known' (m1 c1) (m2 c2).

(** The tables a run with [load_files] has written when it reaches the
    end. *)
Definition written_tables : gset string :=
  {[catalog_key INPUT_TABLE_NAME]} ∪ {[catalog_key TRADE_POINTS_TABLE_NAME]} ∪ {[catalog_key INDICATORS_TABLE_NAME]}
  ∪ {[catalog_key "Stocks"]} ∪ {[catalog_key "Sales"]} ∪ {[catalog_key "Averages"]}.

(** Two exported files with the same content. *)
Definition same_content (f1 f2 : csv_file) : Prop :=
  csv_options f1 = csv_options f2
  ∧ csv_header f1 = csv_header f2
  ∧ csv_rows f1 = csv_rows f2.





(** A reader of delimited text, as a program that takes the exported file
    would have: a field that starts with the quote character runs to the
    next quote character that is not doubled, a doubled one standing for
    one; any other field runs to the next delimiter, and an unquoted empty
    field is a NULL. *)
Module csv_reader.
(** The rest of a quoted field after its opening quote: the value, and
    what follows the closing quote. *)
Fixpoint quoted (q : ascii) (s : string) : option (string * string) :=
  match s with
  | EmptyString => None
  | String c rest =>
      if bool_decide (c = q) then
        match rest with
        | String c' rest' =>
            if bool_decide (c' = q)
            then '(v, r) ← quoted q rest'; Some (String q v, r)
            else Some (EmptyString, rest)
        | EmptyString => Some (EmptyString, EmptyString)
        end
      else '(v, r) ← quoted q rest; Some (String c v, r)
  end.

Fixpoint bare (d : ascii) (s : string) : string * string :=
  match s with
  | EmptyString => (EmptyString, EmptyString)
  | String c rest =>
      if bool_decide (c = d) then (EmptyString, s)
      else let '(v, r) := bare d rest in (String c v, r)
  end.

Definition field (d q : ascii) (s : string) : option (option string * string) :=
  match s with
  | String c rest =>
      if bool_decide (c = q) then '(v, r) ← quoted q rest; Some (Some v, r)
      else let '(v, r) := bare d s in
           Some (match v with EmptyString => None | _ => Some v end, r)
  | EmptyString => Some (None, EmptyString)
  end.

Fixpoint fields (fuel : nat) (d q : ascii) (s : string) : option (list (option string)) :=
  match fuel with
  | O => None
  | S n =>
      match field d q s with
      | Some (v, EmptyString) => Some [v]
      | Some (v, String c rest) =>
          if bool_decide (c = d) then vs ← fields n d q rest; Some (v :: vs)
          else None
      | None => None
      end
  end.

(** The fields of one line; a line has no more fields than characters
    plus one. *)
Definition record (d q : ascii) (s : string) : option (list (option string)) :=
  fields (S (String.length s)) d q s.
End csv_reader.




(** The statements of [main] after the loading step. *)
Definition transform (now : datetime.t) : M csv_file :=
  execute_Stocks;;
  execute_Sales;;
  execute_combined_view;;
  execute_Averages;;
  execute_copy (filename now) export_options.

(** The tables the statements after the loading step write. *)
Definition derived_tables : gset string := {[catalog_key "Stocks"]} ∪ {[catalog_key "Sales"]} ∪ {[catalog_key "Averages"]}.

(** [m] changes no table outside [names], whatever its outcome. *)
Definition touches_only {A} (names : gset string) (m : M A) : Prop :=
  ∀ c k, k ∉ names → tables (m c).2 !! k = tables c !! k.

(** The sum of the non-null values of a column. *)
Definition column_total {A} (f : A → option Z) (rows : list A) : Z :=
  SQL.total (SQL.non_null (map f rows)).

(** The input files of [main]. *)
Definition stock_paths : list string :=
  ["static/data_part_1.parquet"; "static/data_part_2.parquet";
   "static/data_part_3.parquet"; "static/data_part_4.parquet";
   "static/data_part_5.parquet"].

Definition trade_points_path : string := "static/Справочник ТТ.csv".

Definition indicator_paths : list string :=
  ["static/Данные по показателям_1.parquet"; "static/Данные по показателям_2.parquet";
   "static/Данные по показателям_3.parquet"; "static/Данные по показателям_4.parquet";
   "static/Данные по показателям_5.parquet"].

(** The result of the four statements on the three loaded tables. *)
Definition pipeline (input : list parquet_data.row) (tp : list trade_points.row)
    (ind : list indicators.row) : list Averages.row :=
  Averages.query (combined_view.query (Sales.query ind tp) (Stocks.query input tp)).

(** A sales row and a stock row of the same date, store and item, none of
    the three NULL. *)
Definition same_key (s : Sales.row) (st : Stocks.row) : Prop :=
  ∃ d store item,
    Sales.Dt s = Some d ∧ Stocks.Dt st = Some d
    ∧ Sales.Store s = Some store ∧ Stocks.Store st = Some store
    ∧ Sales.Item s = Some item ∧ Stocks.Item st = Some item.

(** * Properties *)

(** ** Three-valued logic and aggregates *)

Section sql_facts.

Lemma holds_and3 a b :
  SQL.holds (SQL.and3 a b) = true ↔ SQL.holds a = true ∧ SQL.holds b = true.
Proof. destruct a as [[]|], b as [[]|]; simpl; intuition congruence. Qed.

Lemma holds_or3 a b :
  SQL.holds (SQL.or3 a b) = true ↔ SQL.holds a = true ∨ SQL.holds b = true.
Proof. destruct a as [[]|], b as [[]|]; simpl; intuition congruence. Qed.

Lemma holds_eq3 {A} `{EqDecision A} (a b : option A) :
  SQL.holds (SQL.eq3 a b) = true ↔ ∃ v, a = Some v ∧ b = Some v.
Proof.
  destruct a as [x|], b as [y|]; simpl; try (split; [discriminate | intros (? & ? & ?); discriminate]).
  destruct (bool_decide_reflect (x = y)) as [->|Hne]; split; try discriminate; eauto.
  intros (v & [= ->] & [= ->]). contradiction.
Qed.

Lemma holds_gt_zero a :
  SQL.holds (SQL.gt a (Some 0)) = true ↔ ∃ v, a = Some v ∧ 0 < v.
Proof.
  destruct a as [x|]; simpl.
  - destruct (Z.ltb_spec 0 x); split; try discriminate; eauto.
    intros (v & [= ->] & ?). lia.
  - split; [discriminate | intros (? & ? & ?); discriminate].
Qed.

Lemma holds_in {A} `{EqDecision A} (x : option A) sub :
  SQL.holds (SQL.in_ x sub) = true ↔ ∃ v, x = Some v ∧ In (Some v) sub.
Proof.
  unfold SQL.in_. destruct sub as [|y sub].
  { simpl. split; [discriminate | intros (? & ? & [])]. }
  destruct x as [v|].
  2: { simpl. split; [discriminate | intros (? & ? & ?); discriminate]. }
  destruct (existsb _ (y :: sub)) eqn:E.
  - simpl. split; [|done]. intros _. exists v. split; [done|].
    apply existsb_exists in E as (z & Hz & Hd).
    apply bool_decide_eq_true in Hd. by subst.
  - assert (¬ In (Some v) (y :: sub)) as Hn.
    { intros Hin. apply Bool.not_true_iff_false in E. apply E.
      apply existsb_exists. exists (Some v). split; [done|].
      by apply bool_decide_eq_true. }
    destruct (existsb (fun z => bool_decide (z = None)) (y :: sub)); simpl;
      (split; [discriminate | intros (w & [= ->] & ?); contradiction]).
Qed.

Lemma non_null_all_some {A} (vs : list A) : SQL.non_null (map Some vs) = vs.
Proof. induction vs as [|v vs IH]; [done|]. cbn. f_equal. exact IH. Qed.

End sql_facts.

(** ** GROUP BY *)

Section group_by_facts.
Context {K A : Type} `{EqDecision K} (key : A → K).

Lemma group_by_keys (l : list A) :
  map fst (SQL.group_by key l) = remove_dups (map key l).
Proof.
  unfold SQL.group_by. rewrite map_map. simpl. apply map_id.
Qed.

Lemma group_by_NoDup (l : list A) : NoDup (map fst (SQL.group_by key l)).
Proof. rewrite group_by_keys. apply NoDup_remove_dups. Qed.

Lemma group_by_In (l : list A) k g :
  In (k, g) (SQL.group_by key l) ↔
  In k (map key l) ∧ g = List.filter (fun r => bool_decide (key r = k)) l.
Proof.
  unfold SQL.group_by. rewrite in_map_iff. split.
  - intros (k' & [= -> <-] & Hin).
    rewrite <- list_elem_of_In, elem_of_remove_dups, list_elem_of_In in Hin. done.
  - intros [Hin ->]. exists k. split; [done|].
    by rewrite <- list_elem_of_In, elem_of_remove_dups, list_elem_of_In.
Qed.

Lemma group_by_covers (l : list A) x :
  In x l → ∃ g, In (key x, g) (SQL.group_by key l) ∧ In x g.
Proof.
  intros Hin. eexists. split.
  - apply group_by_In. split; [|done]. by apply in_map.
  - apply filter_In. split; [done|]. by apply bool_decide_eq_true.
Qed.

Lemma group_by_nonempty (l : list A) k g :
  In (k, g) (SQL.group_by key l) → ∃ x, In x g ∧ In x l ∧ key x = k.
Proof.
  intros [Hin ->]%group_by_In. apply in_map_iff in Hin as (x & Hx & Hl).
  exists x. split; [|done]. apply filter_In. split; [done|].
  by apply bool_decide_eq_true.
Qed.
End group_by_facts.

(** ** The filters of the two derived tables *)

Lemma date_leb_le a b : date_leb a b = true ↔ date_le a b.
Proof.
  unfold date_leb, date_le. destruct a, b; simpl.
  rewrite !orb_true_iff, !andb_true_iff, !orb_true_iff, !andb_true_iff.
  rewrite !Z.ltb_lt, !Z.eqb_eq, Z.leb_le. tauto.
Qed.

Lemma holds_date_between x lo hi :
  SQL.holds (date_between x (Some lo) (Some hi)) = true ↔ ∃ d, x = Some d ∧ within lo hi d.
Proof.
  unfold date_between, within. rewrite holds_and3. destruct x as [d|]; simpl.
  - split.
    + intros [H1 H2]. exists d. split; [done|].
      split; apply date_leb_le; [by destruct (date_leb lo d) | by destruct (date_leb d hi)].
    + intros (? & [= <-] & H1%date_leb_le & H2%date_leb_le). by rewrite H1, H2.
  - split; [intros [? ?]; discriminate | intros (? & ? & ?); discriminate].
Qed.

Lemma holds_store_subquery class tp (x : option string) :
  SQL.holds (SQL.in_ x
    (map trade_points.Код_склада
       (List.filter (fun t => SQL.holds (SQL.eq3 (trade_points.Тип_склада t) (Some class))) tp)))
  = true ↔ ∃ s, x = Some s ∧ outlet_class_set class tp s.
Proof.
  rewrite holds_in. unfold outlet_class_set. split.
  - intros (s & -> & Hin). exists s. split; [done|].
    apply in_map_iff in Hin as (t & Ht & Hf). apply filter_In in Hf as [Hf Hc].
    apply holds_eq3 in Hc as (v & Hv & [= <-]). eauto.
  - intros (s & -> & t & Ht & Hk & Hc). exists s. split; [done|].
    apply in_map_iff. exists t. split; [done|]. apply filter_In. split; [done|].
    apply holds_eq3. eauto.
Qed.

Lemma Stocks_where_holds tp r :
  SQL.holds (Stocks.where_ tp r) = true ↔
  ∃ s d, parquet_data.final_store_id r = Some s
         ∧ outlet_class_set "Маленький склад" tp s
         ∧ parquet_data.dt r = Some d
         ∧ within Stocks.window_start Stocks.window_end d.
Proof.
  unfold Stocks.where_, Stocks.store_subquery.
  rewrite holds_and3, holds_store_subquery, holds_date_between. split.
  - intros [(s & ? & ?) (d & ? & ?)]. by exists s, d.
  - intros (s & d & ? & ? & ? & ?). split; [by exists s | by exists d].
Qed.

Lemma Sales_where_holds tp x :
  SQL.holds (Sales.where_ tp x) = true ↔
  ∃ s d, indicators.Код_Склада x = Some s
         ∧ outlet_class_set "Маленький склад" tp s
         ∧ cast_date (indicators.Дата x) = Some d
         ∧ within Sales.window_start Sales.window_end d.
Proof.
  unfold Sales.where_, Sales.store_subquery.
  rewrite holds_and3, holds_store_subquery, holds_date_between. split.
  - intros [(s & ? & ?) (d & ? & ?)]. by exists s, d.
  - intros (s & d & ? & ? & ? & ?). split; [by exists s | by exists d].
Qed.

Lemma Stocks_query_In input tp r :
  In r (Stocks.query input tp) ↔
  ∃ x, In x input ∧ SQL.holds (Stocks.where_ tp x) = true ∧ r = Stocks.select x.
Proof.
  unfold Stocks.query. rewrite in_map_iff. split.
  - intros (x & <- & [? ?]%filter_In). eauto.
  - intros (x & ? & ? & ->). exists x. split; [done|]. by apply filter_In.
Qed.

Lemma Sales_query_In ind tp r :
  In r (Sales.query ind tp) ↔
  ∃ store item d g,
    In (store, item, d, g)
       (SQL.group_by Sales.group_key (List.filter (fun x => SQL.holds (Sales.where_ tp x)) ind))
    ∧ r = Sales.select (store, item, d, g).
Proof.
  unfold Sales.query. rewrite in_map_iff. split.
  - intros ([[[store item] d] g] & <- & ?). by exists store, item, d, g.
  - intros (store & item & d & g & ? & ->). by exists (store, item, d, g).
Qed.

Lemma Sales_row_source ind tp r :
  In r (Sales.query ind tp) →
  ∃ x, In x ind ∧ SQL.holds (Sales.where_ tp x) = true
       ∧ Sales.Store r = indicators.Код_Склада x
       ∧ Sales.Item r = indicators.Код_товара x
       ∧ Sales.Dt r = cast_date (indicators.Дата x).
Proof.
  intros (store & item & d & g & Hg & ->)%Sales_query_In.
  apply group_by_nonempty in Hg as (x & _ & [Hx Hw]%filter_In & Hk).
  exists x. unfold Sales.group_key in Hk. injection Hk as <- <- <-. done.
Qed.

(** C4. Every row of [Stocks] has a store code that belongs to the trade
    points whose outlet class is the target class, and a date inside the
    window, both ends included. *)
Theorem Stocks_filter_correct input tp r :
  In r (Stocks.query input tp) →
  ∃ s d, Stocks.Store r = Some s
         ∧ outlet_class_set "Маленький склад" tp s
         ∧ Stocks.Dt r = Some d
         ∧ within Stocks.window_start Stocks.window_end d.
Proof.
  intros (x & _ & Hw & ->)%Stocks_query_In.
  apply Stocks_where_holds in Hw. exact Hw.
Qed.

Lemma Stocks_filter_correct_witness :
  In example.Stocks_row (Stocks.query example.parquet_data example.trade_points)
  ∧ ∃ s d, Stocks.Store example.Stocks_row = Some s
           ∧ outlet_class_set "Маленький склад" example.trade_points s
           ∧ Stocks.Dt example.Stocks_row = Some d
           ∧ within Stocks.window_start Stocks.window_end d.
Proof.
  assert (In example.Stocks_row (Stocks.query example.parquet_data example.trade_points))
    as Hin by (vm_compute; left; reflexivity).
  split; [exact Hin|].
  exact (Stocks_filter_correct example.parquet_data example.trade_points
           example.Stocks_row Hin).
Defined.

(** C6. The Sales stage filters with the same store subquery and the same
    window as the Stocks stage: the two WHERE clauses agree on rows with
    the same store and calendar date, and both derived tables hold only
    stores of the target class and dates of the one window. *)
Theorem Sales_Stocks_same_filter :
  (∀ tp, Sales.store_subquery tp = Stocks.store_subquery tp)
  ∧ Sales.window_start = Stocks.window_start
  ∧ Sales.window_end = Stocks.window_end
  ∧ (∀ tp r x,
        parquet_data.final_store_id r = indicators.Код_Склада x →
        parquet_data.dt r = cast_date (indicators.Дата x) →
        Stocks.where_ tp r = Sales.where_ tp x)
  ∧ (∀ input tp r, In r (Stocks.query input tp) →
        ∃ s d, Stocks.Store r = Some s ∧ outlet_class_set "Маленький склад" tp s
               ∧ Stocks.Dt r = Some d ∧ within Stocks.window_start Stocks.window_end d)
  ∧ (∀ ind tp r, In r (Sales.query ind tp) →
        ∃ s d, Sales.Store r = Some s ∧ outlet_class_set "Маленький склад" tp s
               ∧ Sales.Dt r = Some d ∧ within Stocks.window_start Stocks.window_end d).
Proof.
  split; [done|]. split; [done|]. split; [done|]. split; [|split].
  - intros tp r x Hs Hd. unfold Stocks.where_, Sales.where_. by rewrite Hs, Hd.
  - intros input tp r (x & _ & Hw & ->)%Stocks_query_In.
    by apply Stocks_where_holds in Hw.
  - intros ind tp r (x & _ & Hw & -> & _ & ->)%Sales_row_source.
    by apply Sales_where_holds in Hw.
Qed.

Lemma Sales_Stocks_same_filter_witness :
  In example.Sales_row (Sales.query example.indicators example.trade_points)
  ∧ ∃ s d, Sales.Store example.Sales_row = Some s
           ∧ outlet_class_set "Маленький склад" example.trade_points s
           ∧ Sales.Dt example.Sales_row = Some d
           ∧ within Stocks.window_start Stocks.window_end d.
Proof.
  assert (In example.Sales_row (Sales.query example.indicators example.trade_points))
    as Hin by (vm_compute; left; reflexivity).
  split; [exact Hin|].
  destruct Sales_Stocks_same_filter as (_ & _ & _ & _ & _ & Hsales).
  exact (Hsales example.indicators example.trade_points example.Sales_row Hin).
Defined.

Lemma Sales_record_date tp x :
  SQL.holds (Sales.where_ tp x) = true →
  ∃ t, indicators.Дата x = Some t.
Proof.
  intros (s & d & _ & _ & Hd & _)%Sales_where_holds.
  destruct (indicators.Дата x) as [t|]; [by exists t | discriminate Hd].
Qed.

Lemma Sales_keys_NoDup ind tp :
  NoDup (map (fun r => (Sales.Store r, Sales.Item r, Sales.Dt r)) (Sales.query ind tp)).
Proof.
  unfold Sales.query. rewrite map_map.
  rewrite (map_ext _ fst); [apply group_by_NoDup|].
  by intros [[[store item] d] g].
Qed.

Lemma NoDup_map_unique {A B} (f : A → B) (l : list A) x y :
  NoDup (map f l) → In x l → In y l → f x = f y → x = y.
Proof.
  induction l as [|z l IH]; intros Hnd Hx Hy Heq; [destruct Hx|].
  simpl in Hnd. apply NoDup_cons in Hnd as [Hz Hnd].
  destruct Hx as [-> | Hx], Hy as [-> | Hy]; [done | | | by apply IH].
  - exfalso. apply Hz. rewrite Heq. by apply list_elem_of_In, in_map.
  - exfalso. apply Hz. rewrite <- Heq. by apply list_elem_of_In, in_map.
Qed.

(** C7. [Sales] has at most one row for a (store, item, date) triple.  The
    date of a row is the calendar date of the timestamp of an indicator
    record that passes the filter, its time of day dropped; every such
    record has the row of its store, item and calendar date; and two
    records of one store, item and calendar date, whatever their times of
    day, have the same row. *)
Theorem Sales_one_row_per_grain ind tp :
  NoDup (map (fun r => (Sales.Store r, Sales.Item r, Sales.Dt r)) (Sales.query ind tp))
  ∧ (∀ r1 r2, In r1 (Sales.query ind tp) → In r2 (Sales.query ind tp) →
       Sales.Store r1 = Sales.Store r2 → Sales.Item r1 = Sales.Item r2 →
       Sales.Dt r1 = Sales.Dt r2 → r1 = r2)
  ∧ (∀ r, In r (Sales.query ind tp) →
       ∃ x t, In x ind ∧ SQL.holds (Sales.where_ tp x) = true
              ∧ indicators.Дата x = Some t
              ∧ Sales.Store r = indicators.Код_Склада x
              ∧ Sales.Item r = indicators.Код_товара x
              ∧ Sales.Dt r = Some (ts_date t))
  ∧ (∀ x t, In x ind → SQL.holds (Sales.where_ tp x) = true →
       indicators.Дата x = Some t →
       ∃ r, In r (Sales.query ind tp)
            ∧ Sales.Store r = indicators.Код_Склада x
            ∧ Sales.Item r = indicators.Код_товара x
            ∧ Sales.Dt r = Some (ts_date t))
  ∧ (∀ x y t u rx ry,
       indicators.Дата x = Some t → indicators.Дата y = Some u →
       indicators.Код_Склада x = indicators.Код_Склада y →
       indicators.Код_товара x = indicators.Код_товара y →
       ts_date t = ts_date u →
       In rx (Sales.query ind tp) → In ry (Sales.query ind tp) →
       Sales.Store rx = indicators.Код_Склада x → Sales.Item rx = indicators.Код_товара x →
       Sales.Dt rx = Some (ts_date t) →
       Sales.Store ry = indicators.Код_Склада y → Sales.Item ry = indicators.Код_товара y →
       Sales.Dt ry = Some (ts_date u) →
       rx = ry).
Proof.
  assert (∀ r1 r2, In r1 (Sales.query ind tp) → In r2 (Sales.query ind tp) →
            Sales.Store r1 = Sales.Store r2 → Sales.Item r1 = Sales.Item r2 →
            Sales.Dt r1 = Sales.Dt r2 → r1 = r2) as Hunique.
  { intros r1 r2 H1 H2 Hs Hi Hd.
    apply (NoDup_map_unique (fun r => (Sales.Store r, Sales.Item r, Sales.Dt r))
             (Sales.query ind tp)); [apply Sales_keys_NoDup | done | done |].
    by rewrite Hs, Hi, Hd. }
  split; [apply Sales_keys_NoDup|]. split; [exact Hunique|]. split; [|split].
  - intros r (x & Hx & Hw & Hs & Hi & Hd)%Sales_row_source.
    destruct (Sales_record_date tp x Hw) as [t Ht].
    exists x, t. rewrite Ht in Hd. done.
  - intros x t Hx Hw Ht.
    destruct (group_by_covers Sales.group_key
                (List.filter (fun y => SQL.holds (Sales.where_ tp y)) ind) x) as (g & Hg & _).
    { by apply filter_In. }
    exists (Sales.select (Sales.group_key x, g)). split.
    + unfold Sales.query. by apply in_map.
    + unfold Sales.group_key. simpl. by rewrite Ht.
  - intros x y t u rx ry Ht Hu Hs Hi Hd Hrx Hry Hxs Hxi Hxd Hys Hyi Hyd.
    apply Hunique; [done | done | | |].
    + by rewrite Hxs, Hys.
    + by rewrite Hxi, Hyi.
    + by rewrite Hxd, Hyd, Hd.
Qed.

Lemma Sales_one_row_per_grain_witness :
  In example.Sales_row (Sales.query example.indicators example.trade_points)
  ∧ ∃ x t, In x example.indicators
           ∧ SQL.holds (Sales.where_ example.trade_points x) = true
           ∧ indicators.Дата x = Some t
           ∧ Sales.Store example.Sales_row = indicators.Код_Склада x
           ∧ Sales.Item example.Sales_row = indicators.Код_товара x
           ∧ Sales.Dt example.Sales_row = Some (ts_date t).
Proof.
  assert (In example.Sales_row (Sales.query example.indicators example.trade_points))
    as Hin by (vm_compute; left; reflexivity).
  split; [exact Hin|].
  destruct (Sales_one_row_per_grain example.indicators example.trade_points)
    as (_ & _ & Hsource & _ & _).
  exact (Hsource example.Sales_row Hin).
Defined.

(** ** The activity filter *)

Lemma where_holds_signal j :
  SQL.holds (combined_view.where_ j) = true ↔ has_signal (combined_view.select j).
Proof.
  unfold combined_view.where_, has_signal. rewrite holds_or3, !holds_gt_zero.
  destruct j as [s st]. simpl.
  destruct (SQL.col s Sales.Sales_pc) as [a|], (SQL.col st Stocks.Stock_pc) as [b|]; simpl.
  - split.
    + intros [(v & [= <-] & ?) | (v & [= <-] & ?)]; exists a, b; auto.
    + intros (x & y & [= <-] & [= <-] & [?|?]); eauto.
  - split.
    + intros [(v & [= <-] & ?) | (v & [=] & ?)]. exists a, 0; auto.
    + intros (x & y & [= <-] & [= <-] & [?|?]); [eauto | lia].
  - split.
    + intros [(v & [=] & ?) | (v & [= <-] & ?)]. exists 0, b; auto.
    + intros (x & y & [= <-] & [= <-] & [?|?]); [lia | eauto].
  - split.
    + intros [(v & [=] & ?) | (v & [=] & ?)].
    + intros (x & y & [= <-] & [= <-] & [?|?]); lia.
Qed.

Lemma combined_view_query_In sales stocks r :
  In r (combined_view.query sales stocks) ↔
  ∃ j, In j (combined_view.from sales stocks)
       ∧ SQL.holds (combined_view.where_ j) = true ∧ r = combined_view.select j.
Proof.
  unfold combined_view.query. rewrite in_map_iff. split.
  - intros (j & <- & [? ?]%filter_In). eauto.
  - intros (j & ? & ? & ->). exists j. split; [done|]. by apply filter_In.
Qed.

(** C1, as the code has it. Every row of [combined_view] has a strictly
    positive sales quantity or a strictly positive stock quantity after
    coalescing; a joined row is kept exactly when it has such a signal, so
    the all-zero rows are dropped, and so is every other row without a
    positive value. *)
Theorem combined_view_activity_filter sales stocks :
  (∀ r, In r (combined_view.query sales stocks) → has_signal r)
  ∧ (∀ j, In j (combined_view.from sales stocks) →
       (In (combined_view.select j) (combined_view.query sales stocks)
        ↔ has_signal (combined_view.select j)))
  ∧ (∀ j, SQL.holds (combined_view.where_ j) = true ↔ has_signal (combined_view.select j))
  ∧ (∀ j, all_zero (combined_view.select j) → SQL.holds (combined_view.where_ j) = false).
Proof.
  split; [|split; [|split]].
  - intros r (j & _ & Hw & ->)%combined_view_query_In. by apply where_holds_signal.
  - intros j Hj. split.
    + intros (j' & _ & Hw & ->)%combined_view_query_In. by apply where_holds_signal.
    + intros Hs%where_holds_signal. apply combined_view_query_In. eauto.
  - apply where_holds_signal.
  - intros j [Hs Hk]. apply Bool.not_true_iff_false.
    intros (s & k & Hs' & Hk' & Hpos)%where_holds_signal.
    rewrite Hs in Hs'. rewrite Hk in Hk'. injection Hs' as <-. injection Hk' as <-. lia.
Qed.

Lemma combined_view_activity_filter_witness :
  In example.combined_row (combined_view.query scenario.Sales scenario.Stocks)
  ∧ has_signal example.combined_row.
Proof.
  assert (In example.combined_row (combined_view.query scenario.Sales scenario.Stocks))
    as Hin by (vm_compute; left; reflexivity).
  split; [exact Hin|].
  destruct (combined_view_activity_filter scenario.Sales scenario.Stocks) as (Hrows & _).
  exact (Hrows example.combined_row Hin).
Defined.

(** C1, as stated, fails: a sales row with a negative quantity and no stock
    record is not all-zero after coalescing, and the filter drops it. *)
Lemma activity_filter_counterexample :
  In (Some example.returned, None) (combined_view.from [example.returned] [])
  ∧ combined_view.Sales_pc (combined_view.select (Some example.returned, None)) = Some (-1)
  ∧ combined_view.Stock_pc (combined_view.select (Some example.returned, None)) = Some 0
  ∧ combined_view.query [example.returned] [] = []
  ∧ ¬ (∀ sales stocks j, In j (combined_view.from sales stocks) →
         (SQL.holds (combined_view.where_ j) = false ↔ all_zero (combined_view.select j))).
Proof.
  split; [by left|]. split; [done|]. split; [done|]. split; [done|].
  intros H.
  destruct (H [example.returned] [] (Some example.returned, None)) as [Hz _]; [by left|].
  destruct (Hz eq_refl) as [Hs _]. discriminate Hs.
Qed.

(** ** Aggregation to averages *)

Lemma combined_view_non_null sales stocks r :
  In r (combined_view.query sales stocks) →
  (∃ v, combined_view.Sales_pc r = Some v)
  ∧ (∃ v, combined_view.Sales_rub r = Some v)
  ∧ (∃ v, combined_view.Stock_pc r = Some v).
Proof.
  intros (j & _ & _ & ->)%combined_view_query_In. destruct j as [s st]. simpl.
  destruct (SQL.col s Sales.Sales_pc), (SQL.col s Sales.Sales_rub),
    (SQL.col st Stocks.Stock_pc); simpl; repeat split; eauto.
Qed.

Lemma map_all_some {A B} (f : A → option B) (g : list A) :
  (∀ r, In r g → ∃ v, f r = Some v) →
  ∃ vs, map f g = map Some vs ∧ length vs = length g.
Proof.
  induction g as [|r g IH]; intros Hall.
  - by exists [].
  - destruct (Hall r) as [v Hv]; [by left|].
    destruct IH as (vs & Hvs & Hlen); [intros; apply Hall; by right|].
    exists (v :: vs). simpl. by rewrite Hv, Hvs, Hlen.
Qed.

Lemma sum_all_some vs : vs ≠ [] → SQL.sum (map Some vs) = Some (SQL.total vs).
Proof. intros Hne. unfold SQL.sum. rewrite non_null_all_some. by destruct vs. Qed.


Lemma Averages_query_In cv a :
  In a (Averages.query cv) ↔
  ∃ store item g, In (store, item, g) (SQL.group_by Averages.group_key cv)
                  ∧ a = Averages.select (store, item, g).
Proof.
  unfold Averages.query. rewrite in_map_iff. split.
  - intros ([[store item] g] & <- & ?). by exists store, item, g.
  - intros (store & item & g & ? & ->). by exists (store, item, g).
Qed.




(** C5. The scenario: the view keeps the row of 2025-02-01 and not the one
    of 2025-02-02, and the averages of (S1, I1) are 3 units over 1 day, 30
    in currency, with a maximum stock of 5. *)
Theorem scenario_result :
  combined_view.query scenario.Sales scenario.Stocks
  = [ combined_view.Row (Some (Date 2025 2 1)) (Some "S1") (Some "I1")
        (Some 3) (Some 30) (Some 5) ]
  ∧ (∀ r, In r (combined_view.query scenario.Sales scenario.Stocks) →
        combined_view.Dt r ≠ Some (Date 2025 2 2))
  ∧ Averages.query (combined_view.query scenario.Sales scenario.Stocks)
    = [ Averages.Row (Some "S1") (Some "I1") (Some (DOUBLE.of_Z 3)) (Some (DOUBLE.of_Z 30)) 1
          (Some 30) (Some 3) (Some 5) ]
  ∧ DOUBLE.value (DOUBLE.of_Z 3) = Some (3 # 1)%Q
  ∧ DOUBLE.value (DOUBLE.of_Z 30) = Some (30 # 1)%Q.
Proof.
  split; [reflexivity|]. split; [|split; [vm_compute; reflexivity | split; vm_compute; reflexivity]].
  intros r [<- | []]. discriminate.
Qed.

Lemma scenario_result_witness :
  In example.combined_row (combined_view.query scenario.Sales scenario.Stocks)
  ∧ combined_view.Dt example.combined_row ≠ Some (Date 2025 2 2).
Proof.
  assert (In example.combined_row (combined_view.query scenario.Sales scenario.Stocks))
    as Hin by (vm_compute; left; reflexivity).
  split; [exact Hin|].
  destruct scenario_result as (_ & Hdropped & _).
  exact (Hdropped example.combined_row Hin).
Defined.

(** ** The bulk loader *)

Ltac unfold_M :=
  unfold execute_drop, execute_create, mbind, M_bind, mret, M_ret, raise, issue,
    get_connection, get_tables, put_table, drop_table, put_temp_view in *;
  simpl in *.

Lemma check_paths_cases fs paths c :
  (check_paths fs paths c = (Ok tt, c) ∧ ∀ p, In p paths → is_Some (fs !! p))
  ∨ (∃ before p after,
        paths = (before ++ p :: after)%list
        ∧ (∀ q, In q before → is_Some (fs !! q))
        ∧ fs !! p = None
        ∧ check_paths fs paths c
          = (Raise (FileNotFoundError ("File not found: " +:+ p)), c)).
Proof.
  induction paths as [|path rest IH]; simpl.
  - left. split; [done|]. intros p [].
  - destruct (fs !! path) as [f|] eqn:Hf.
    + destruct IH as [[Hok Hall] | (before & p & after & -> & Hbefore & Hp & Hraise)].
      * left. split; [done|]. intros p [<- | Hin]; [by exists f | by apply Hall].
      * right. exists (path :: before), p, after. split; [done|].
        split; [|done]. intros q [<- | Hin]; [by exists f | by apply Hbefore].
    + right. exists [], path, rest. split; [done|]. split; [|done]. intros q [].
Qed.

Lemma check_paths_result fs paths :
  ∃ r, ∀ c, check_paths fs paths c = (r, c).
Proof.
  induction paths as [|path rest IH]; simpl.
  - by exists (Ok tt).
  - destruct (fs !! path); [exact IH | by eexists].
Qed.

(** C3. When some path of the list does not exist, the loader raises
    [FileNotFoundError] with the message naming the first missing path of
    the list, and the connection is as it was: no statement was issued, no
    table dropped or created, whatever [overwrite] and the other paths. *)
Theorem loader_missing_file fs paths table_name data_type overwrite c :
  (∃ p, In p paths ∧ fs !! p = None) →
  ∃ before p after,
    paths = (before ++ p :: after)%list
    ∧ (∀ q, In q before → is_Some (fs !! q))
    ∧ fs !! p = None
    ∧ load_file_to_duckdb fs paths table_name data_type overwrite c
      = (Raise (FileNotFoundError ("File not found: " +:+ p)), c).
Proof.
  intros (p0 & Hin0 & Hp0).
  destruct (check_paths_cases fs paths c)
    as [[_ Hall] | (before & p & after & Hpaths & Hbefore & Hp & Hraise)].
  - destruct (Hall p0 Hin0) as [f Hf]. congruence.
  - exists before, p, after. split; [done|]. split; [done|]. split; [done|].
    unfold load_file_to_duckdb. unfold mbind at 1. unfold M_bind. by rewrite Hraise.
Qed.

Lemma loader_missing_file_witness :
  (∃ p, In p ["static/data_part_1.parquet"; "static/absent.parquet"]
        ∧ example_run.files !! p = None)
  ∧ load_file_to_duckdb example_run.files
      ["static/data_part_1.parquet"; "static/absent.parquet"]
      INPUT_TABLE_NAME parquet true example_run.connection0
    = (Raise (FileNotFoundError "File not found: static/absent.parquet"),
       example_run.connection0).
Proof.
  assert (∃ p, In p ["static/data_part_1.parquet"; "static/absent.parquet"]
               ∧ example_run.files !! p = None) as Hmissing.
  { exists "static/absent.parquet". split; [right; left; reflexivity|].
    vm_compute. reflexivity. }
  split; [exact Hmissing|].
  destruct (loader_missing_file example_run.files
              ["static/data_part_1.parquet"; "static/absent.parquet"]
              INPUT_TABLE_NAME parquet true example_run.connection0 Hmissing)
    as (before & p & after & Hpaths & _ & Hp & Hraise).
  assert (In p ["static/data_part_1.parquet"; "static/absent.parquet"]) as Hin.
  { rewrite Hpaths. apply in_elt. }
  destruct Hin as [<- | [<- | []]].
  - vm_compute in Hp. discriminate Hp.
  - exact Hraise.
Defined.



(** ** The exported file *)

Section strings.






End strings.

Section csv.
Implicit Types (o : copy_options) (d q c : ascii) (s rest : string).













Lemma record_as_line o names :
  csv_writer.record o names = csv_writer.line o (Some <$> names).
Proof.
  unfold csv_writer.record, csv_writer.line. f_equal.
  rewrite <- list_fmap_compose. done.
Qed.

End csv.

Section zero_pad.
Import datetime.








End zero_pad.



Lemma bind_Ok {A B} (m : M A) (k : A → M B) c b c' :
  (m ≫= k) c = (Ok b, c') → ∃ a c1, m c = (Ok a, c1) ∧ k a c1 = (Ok b, c').
Proof.
  unfold mbind, M_bind. destruct (m c) as [[a|e] c1]; [eauto | discriminate].
Qed.

Lemma execute_copy_Ok name o c f c' :
  execute_copy name o c = (Ok f, c') →
  csv_name f = name ∧ csv_options f = o
  ∧ csv_header f = (if HEADER o then Some (csv_writer.record o Averages.columns) else None)
  ∧ tables c !! catalog_key "Averages" = Some (Averages_rows (csv_rows f))
  ∧ tables c' = tables c.
Proof.
  unfold execute_copy. unfold_M.
  destruct (tables c !! catalog_key "Averages") as [[]|] eqn:Ha; try discriminate.
  intros [= <- <-]. done.
Qed.





(** ** Running the pipeline again *)

Section writes.
Implicit Types (db : gmap string relation) (ws : list write) (w : write).

Lemma apply_write_lookup db w k :
  apply_write db w !! k = if decide (w.1 = k) then w.2 else db !! k.
Proof.
  unfold apply_write. destruct w as [name [r|]]; simpl.
  - rewrite lookup_insert. by destruct (decide (name = k)).
  - rewrite lookup_delete. by destruct (decide (name = k)).
Qed.

Lemma apply_writes_app ws ws' db :
  apply_writes (ws ++ ws') db = apply_writes ws' (apply_writes ws db).
Proof. apply foldl_app. Qed.

(** A key is either written, and then its value does not depend on the
    database the writes start from, or left as it was. *)
Lemma apply_writes_lookup_cases ws db db' k :
  apply_writes ws db !! k = apply_writes ws db' !! k
  ∨ (apply_writes ws db !! k = db !! k ∧ apply_writes ws db' !! k = db' !! k).
Proof.
  revert db db'. induction ws as [|w ws IH]; intros db db'; [by right|].
  simpl. destruct (IH (apply_write db w) (apply_write db' w)) as [Heq | [H1 H2]];
    [by left|].
  rewrite H1, H2, !apply_write_lookup.
  destruct (decide (w.1 = k)); [by left | by right].
Qed.

Lemma apply_writes_idemp ws db :
  apply_writes ws (apply_writes ws db) = apply_writes ws db.
Proof.
  apply map_eq. intros k.
  destruct (apply_writes_lookup_cases ws (apply_writes ws db) db k) as [H | [H _]];
    exact H.
Qed.

Lemma apply_writes_agree ws db db' k :
  db !! k = db' !! k → apply_writes ws db !! k = apply_writes ws db' !! k.
Proof.
  intros Hk. destruct (apply_writes_lookup_cases ws db db' k) as [H | [H1 H2]];
    [done | congruence].
Qed.

Lemma apply_writes_written ws db db' k :
  In k (map fst ws) → apply_writes ws db !! k = apply_writes ws db' !! k.
Proof.
  revert db db'. induction ws as [|w ws IH]; intros db db' Hin; [destruct Hin|].
  simpl. destruct (apply_writes_lookup_cases ws (apply_write db w) (apply_write db' w) k)
    as [H | [H1 H2]]; [done|].
  destruct (decide (w.1 = k)) as [Hw|Hw].
  - rewrite H1, H2, !apply_write_lookup. by rewrite !decide_True.
  - apply IH. by destruct Hin.
Qed.
End writes.

Ltac both_raise ws :=
  exists ws; split; [reflexivity|]; split; [reflexivity|];
  unfold same_outcome; simpl; reflexivity.

Section oblivious.

Lemma agree_writes known ws c1 c2 c1' c2' :
  agree known c1 c2 →
  temp_views c1' = temp_views c2' →
  tables c1' = apply_writes ws (tables c1) →
  tables c2' = apply_writes ws (tables c2) →
  agree (known ∪ list_to_set (map fst ws)) c1' c2'.
Proof.
  intros [_ Hk] Hv H1 H2. split; [done|]. intros k Hin. rewrite H1, H2.
  apply elem_of_union in Hin as [Hin | Hin].
  - by apply apply_writes_agree, Hk.
  - apply apply_writes_written. apply list_elem_of_In.
    by apply elem_of_list_to_set in Hin.
Qed.

Lemma agree_weaken known known' c1 c2 :
  known' ⊆ known → agree known c1 c2 → agree known' c1 c2.
Proof. intros Hsub [Hv Hk]. split; [done|]. intros k Hin. by apply Hk, Hsub. Qed.

Lemma oblivious_bind {A B} known known' known'' (Q : A → A → Prop) (Q' : B → B → Prop)
    (m1 m2 : M A) (k1 k2 : A → M B) :
  oblivious known Q known' m1 m2 →
  (∀ a1 a2, Q a1 a2 → oblivious known' Q' known'' (k1 a1) (k2 a2)) →
  oblivious known Q' known'' (m1 ≫= k1) (m2 ≫= k2).
Proof.
  intros Hm Hk c1 c2 Hc. destruct (Hm c1 c2 Hc) as (ws & H1 & H2 & Hout).
  unfold mbind, M_bind. unfold same_outcome in Hout.
  destruct (m1 c1) as [[a1|e1] c1'], (m2 c2) as [[a2|e2] c2']; simpl in *; try done.
  - destruct Hout as [HQ Hc'].
    destruct (Hk a1 a2 HQ c1' c2' Hc') as (ws' & H1' & H2' & Hout').
    exists (ws ++ ws')%list. rewrite !apply_writes_app, <- H1, <- H2. done.
  - exists ws. done.
Qed.

Lemma oblivious_weaken {A} known known1 known2 (Q : A → A → Prop) (m1 m2 : M A) :
  known2 ⊆ known1 →
  oblivious known Q known1 m1 m2 → oblivious known Q known2 m1 m2.
Proof.
  intros Hsub Hm c1 c2 Hc. destruct (Hm c1 c2 Hc) as (ws & H1 & H2 & Hout).
  exists ws. split; [done|]. split; [done|]. unfold same_outcome in *.
  destruct (m1 c1).1, (m2 c2).1; try done.
  destruct Hout as [HQ Hc']. split; [done|]. by eapply agree_weaken.
Qed.

(** The loader with [overwrite] does not look at the database at all:
    its result and its writes are fixed by the files. *)
Lemma load_overwrite_run fs paths table_name data_type :
  ∃ (r : result unit) (ws : list write),
    (∀ c, (load_file_to_duckdb fs paths table_name data_type true c).1 = r
          ∧ tables (load_file_to_duckdb fs paths table_name data_type true c).2
            = apply_writes ws (tables c)
          ∧ temp_views (load_file_to_duckdb fs paths table_name data_type true c).2
            = temp_views c)
    ∧ ((∃ a, r = Ok a) → In (catalog_key table_name) (map fst ws)).
Proof.
  destruct (check_paths_result fs paths) as [[[]|e] Hr].
  - destruct (read_files fs data_type paths) as [rows|] eqn:Hread.
    + exists (Ok tt), [(catalog_key table_name, None); (catalog_key table_name, Some rows)].
      split; [|intros _; by left].
      intros c. unfold load_file_to_duckdb, mbind, M_bind. rewrite Hr.
      unfold_M. rewrite lookup_delete_eq, Hread. done.
    + exists (Raise (DuckDBError "CREATE TABLE: cannot read the files")),
        [(catalog_key table_name, None)].
      split; [|intros _; by left].
      intros c. unfold load_file_to_duckdb, mbind, M_bind. rewrite Hr.
      unfold_M. rewrite lookup_delete_eq, Hread. done.
  - exists (Raise e), []. split; [|by intros [? ?]].
    intros c. unfold load_file_to_duckdb, mbind, M_bind. by rewrite Hr.
Qed.

Lemma load_overwrite_oblivious fs paths table_name data_type known :
  oblivious known (fun _ _ => True) (known ∪ {[catalog_key table_name]})
    (load_file_to_duckdb fs paths table_name data_type true)
    (load_file_to_duckdb fs paths table_name data_type true).
Proof.
  intros c1 c2 Hc.
  destruct (load_overwrite_run fs paths table_name data_type) as (r & ws & Hrun & Hw).
  destruct (Hrun c1) as (Hr1 & Ht1 & Hv1), (Hrun c2) as (Hr2 & Ht2 & Hv2).
  exists ws. split; [done|]. split; [done|].
  unfold same_outcome. rewrite Hr1, Hr2. destruct r as [a|e]; [|done].
  split; [done|]. split.
  - rewrite Hv1, Hv2. apply Hc.
  - intros k Hk. rewrite Ht1, Ht2. apply elem_of_union in Hk as [Hk | Hk].
    + apply apply_writes_agree. by apply Hc.
    + apply elem_of_singleton in Hk as ->. apply apply_writes_written. eauto.
Qed.
End oblivious.

Section stages.

Lemma create_or_replace_oblivious name query known :
  (∀ c1 c2, agree known c1 c2 → query c1 = query c2) →
  oblivious known (fun _ _ => True) (known ∪ {[catalog_key name]})
    (create_or_replace_table name query) (create_or_replace_table name query).
Proof.
  intros Hq c1 c2 Hc. unfold create_or_replace_table. unfold_M.
  match goal with
  | |- context [query ?a] =>
      match goal with
      | |- context [query ?b] =>
          assert (agree known a b) as Hc' by (split; apply Hc);
          rewrite (Hq a b Hc')
      end
  end.
  destruct (query _) as [r|]; [|both_raise (@nil write)].
  exists [(catalog_key name, Some r)]. split; [done|]. split; [done|].
  split; [done|]. split; [apply Hc|]. simpl. intros k Hk.
  rewrite !lookup_insert. destruct (decide (catalog_key name = k)) as [|Hne]; [done|].
  apply Hc. apply elem_of_union in Hk as [Hk | Hk]; [done|].
  apply elem_of_singleton in Hk. congruence.
Qed.

Lemma select_Stocks_agree known c1 c2 :
  catalog_key INPUT_TABLE_NAME ∈ known → catalog_key TRADE_POINTS_TABLE_NAME ∈ known →
  agree known c1 c2 → select_Stocks c1 = select_Stocks c2.
Proof.
  intros Hi Ht [_ Hk]. unfold select_Stocks. by rewrite (Hk _ Hi), (Hk _ Ht).
Qed.

Lemma select_Sales_agree known c1 c2 :
  catalog_key INDICATORS_TABLE_NAME ∈ known → catalog_key TRADE_POINTS_TABLE_NAME ∈ known →
  agree known c1 c2 → select_Sales c1 = select_Sales c2.
Proof.
  intros Hi Ht [_ Hk]. unfold select_Sales. by rewrite (Hk _ Hi), (Hk _ Ht).
Qed.

Lemma select_Averages_agree known c1 c2 :
  catalog_key "Sales" ∈ known → catalog_key "Stocks" ∈ known →
  agree known c1 c2 → select_Averages c1 = select_Averages c2.
Proof.
  intros Hs Ht [Hv Hk]. unfold select_Averages, select_combined_view.
  by rewrite Hv, (Hk _ Hs), (Hk _ Ht).
Qed.

Lemma execute_combined_view_oblivious known :
  catalog_key "Sales" ∈ known → catalog_key "Stocks" ∈ known →
  oblivious known (fun _ _ => True) known execute_combined_view execute_combined_view.
Proof.
  intros Hs Ht c1 c2 [Hv Hk]. unfold execute_combined_view. unfold_M.
  rewrite <- (Hk _ Hs), <- (Hk _ Ht).
  destruct (tables c1 !! catalog_key "Sales") as [[]|]; try both_raise (@nil write).
  destruct (tables c1 !! catalog_key "Stocks") as [[]|]; try both_raise (@nil write).
  exists []. split; [done|]. split; [done|]. split; [done|].
  split; [simpl; by rewrite Hv | done].
Qed.

Lemma execute_copy_oblivious known name1 name2 o :
  catalog_key "Averages" ∈ known →
  oblivious known same_content known (execute_copy name1 o) (execute_copy name2 o).
Proof.
  intros Ha c1 c2 [Hv Hk]. unfold execute_copy. unfold_M. rewrite <- (Hk _ Ha).
  destruct (tables c1 !! catalog_key "Averages") as [[]|]; try both_raise (@nil write).
  exists []. split; [done|]. split; [done|]. split; [done|]. done.
Qed.

Lemma load_all_oblivious fs :
  oblivious ∅ (fun _ _ => True)
    ({[catalog_key INPUT_TABLE_NAME]} ∪ {[catalog_key TRADE_POINTS_TABLE_NAME]} ∪ {[catalog_key INDICATORS_TABLE_NAME]})
    (load_all fs) (load_all fs).
Proof.
  unfold load_all.
  eapply oblivious_bind; [apply load_overwrite_oblivious|]. intros _ _ _.
  eapply oblivious_bind; [apply load_overwrite_oblivious|]. intros _ _ _.
  eapply oblivious_weaken; [|apply load_overwrite_oblivious]. set_solver.
Qed.

Lemma main_try_oblivious fs now1 now2 :
  oblivious ∅ same_content written_tables
    (main_try fs now1 true) (main_try fs now2 true).
Proof.
  unfold main_try, written_tables.
  eapply oblivious_bind; [apply load_all_oblivious|]. intros _ _ _.
  eapply oblivious_bind.
  { apply create_or_replace_oblivious. intros c1 c2.
    apply select_Stocks_agree; set_solver. }
  intros _ _ _. eapply oblivious_bind.
  { apply create_or_replace_oblivious. intros c1 c2.
    apply select_Sales_agree; set_solver. }
  intros _ _ _. eapply oblivious_bind.
  { apply execute_combined_view_oblivious; set_solver. }
  intros _ _ _. eapply oblivious_bind.
  { apply create_or_replace_oblivious. intros c1 c2.
    apply select_Averages_agree; set_solver. }
  intros _ _ _. apply execute_copy_oblivious. set_solver.
Qed.
End stages.

Lemma main_runs fs now1 now2 db db' :
  ∃ ws, (main fs now1 true db).2 = apply_writes ws db
        ∧ (main fs now2 true db').2 = apply_writes ws db'
        ∧ logged (main fs now1 true db).1 = logged (main fs now2 true db').1
        ∧ match output (main fs now1 true db).1, output (main fs now2 true db').1 with
          | Some f1, Some f2 =>
              same_content f1 f2
              ∧ (main fs now1 true db).2 !! catalog_key "Averages" = Some (Averages_rows (csv_rows f1))
              ∧ (main fs now2 true db').2 !! catalog_key "Averages" = Some (Averages_rows (csv_rows f2))
          | None, None => True
          | _, _ => False
          end.
Proof.
  destruct (main_try_oblivious fs now1 now2
              {| tables := db; temp_views := ∅; executed := [] |}
              {| tables := db'; temp_views := ∅; executed := [] |})
    as (ws & H1 & H2 & Hout); [done|].
  exists ws. unfold main. unfold same_outcome in Hout.
  destruct (main_try fs now1 true _) as [[f1|e1] c1] eqn:Hrun1;
    destruct (main_try fs now2 true _) as [[f2|e2] c2] eqn:Hrun2; simpl in *; try done.
  - split; [done|]. split; [done|]. split; [done|].
    destruct Hout as [Hsame _]. split; [done|].
    unfold main_try in Hrun1, Hrun2.
    do 5 (apply bind_Ok in Hrun1 as (? & ? & _ & Hrun1)).
    do 5 (apply bind_Ok in Hrun2 as (? & ? & _ & Hrun2)).
    apply execute_copy_Ok in Hrun1 as (_ & _ & _ & Ha1 & Ht1).
    apply execute_copy_Ok in Hrun2 as (_ & _ & _ & Ha2 & Ht2).
    by rewrite Ht1, Ht2.
  - split; [done|]. split; [done|]. by subst.
Qed.

(** C8. With [load_files] and unchanged input files, a second run leaves
    the database as the first run left it: the same [Averages] table, the
    same outcome, and an exported file with the same content, whatever the
    clock readings.  What a run leaves in [Averages] when it reaches the
    export does not depend on the database it started from. *)
Theorem rerun_idempotent fs now1 now2 db :
  (main fs now2 true (main fs now1 true db).2).2 = (main fs now1 true db).2
  ∧ (main fs now2 true (main fs now1 true db).2).2 !! catalog_key "Averages"
    = (main fs now1 true db).2 !! catalog_key "Averages"
  ∧ logged (main fs now2 true (main fs now1 true db).2).1
    = logged (main fs now1 true db).1
  ∧ match output (main fs now1 true db).1,
          output (main fs now2 true (main fs now1 true db).2).1 with
    | Some f1, Some f2 => same_content f1 f2
    | None, None => True
    | _, _ => False
    end
  ∧ (∀ db' f f',
       output (main fs now1 true db).1 = Some f →
       output (main fs now2 true db').1 = Some f' →
       (main fs now2 true db').2 !! catalog_key "Averages" = (main fs now1 true db).2 !! catalog_key "Averages"
       ∧ (main fs now1 true db).2 !! catalog_key "Averages" = Some (Averages_rows (csv_rows f))).
Proof.
  destruct (main_runs fs now1 now2 db (main fs now1 true db).2)
    as (ws & H1 & H2 & Hlog & Hout).
  assert ((main fs now2 true (main fs now1 true db).2).2 = (main fs now1 true db).2)
    as Hsame.
  { rewrite H2. rewrite H1 at 1 2. apply apply_writes_idemp. }
  split; [done|]. split; [by rewrite Hsame|]. split; [done|]. split.
  - destruct (output (main fs now1 true db).1),
      (output (main fs now2 true (main fs now1 true db).2).1); try done.
    by destruct Hout.
  - intros db' f f' Hf Hf'.
    destruct (main_runs fs now1 now2 db db') as (_ & _ & _ & _ & Hout').
    rewrite Hf, Hf' in Hout'. destruct Hout' as ((_ & _ & Hrows) & Ha & Ha').
    rewrite Ha, Ha', Hrows. done.
Qed.

Lemma rerun_idempotent_witness :
  output (main example_run.files example_run.now true ∅).1 = Some example_run.exported
  ∧ (main example_run.files example_run.later true
       (main example_run.files example_run.now true ∅).2).2
    = (main example_run.files example_run.now true ∅).2
  ∧ (main example_run.files example_run.now true ∅).2 !! catalog_key "Averages"
    = Some (Averages_rows example_run.averages).
Proof.
  assert (output (main example_run.files example_run.now true ∅).1
          = Some example_run.exported) as Hrun by (vm_compute; reflexivity).
  assert (output (main example_run.files example_run.later true example_run.loaded).1
          = Some {| csv_name := "avg_sales_20250307_090542.csv";
                    csv_options := export_options;
                    csv_header := csv_header example_run.exported;
                    csv_rows := example_run.averages |}) as Hrun'
    by (vm_compute; reflexivity).
  destruct (rerun_idempotent example_run.files example_run.now example_run.later ∅)
    as (Hsame & _ & _ & _ & Hany).
  split; [exact Hrun|]. split; [exact Hsame|].
  exact (proj2 (Hany example_run.loaded _ _ Hrun Hrun')).
Defined.

(** * Further properties of the loader *)

Lemma check_paths_ok fs paths c :
  (∀ p, In p paths → is_Some (fs !! p)) → check_paths fs paths c = (Ok tt, c).
Proof.
  intros Hall.
  destruct (check_paths_cases fs paths c)
    as [[Hok _] | (before & p & after & -> & _ & Hp & _)]; [done|].
  destruct (Hall p) as [f Hf]; [apply in_elt | congruence].
Qed.

Lemma load_run fs paths table_name data_type overwrite c :
  (∀ p, In p paths → is_Some (fs !! p)) →
  load_file_to_duckdb fs paths table_name data_type overwrite c
  = ((if overwrite then execute_drop table_name else mret tt);;
     execute_create fs table_name data_type paths) c.
Proof.
  intros Hall. unfold load_file_to_duckdb. unfold mbind at 1. unfold M_bind at 1.
  by rewrite check_paths_ok.
Qed.

(** Without [overwrite], loading into a table that exists fails in the
    engine after the CREATE was issued, and the table keeps its rows. *)
Theorem loader_keeps_existing_table fs paths table_name data_type c old :
  (∀ p, In p paths → is_Some (fs !! p)) →
  tables c !! catalog_key table_name = Some old →
  load_file_to_duckdb fs paths table_name data_type false c
  = (Raise (DuckDBError "CREATE TABLE: table already exists"),
     {| tables := tables c; temp_views := temp_views c;
        executed := executed c ++ [CREATE_TABLE_AS table_name data_type paths] |}).
Proof.
  intros Hall Hold. rewrite load_run by done. unfold_M. by rewrite Hold.
Qed.

Lemma loader_keeps_existing_table_witness :
  load_file_to_duckdb example_run.files ["static/Справочник ТТ.csv"]
    TRADE_POINTS_TABLE_NAME csv false example_run.connection0
  = (Raise (DuckDBError "CREATE TABLE: table already exists"),
     {| tables := example_run.loaded; temp_views := ∅;
        executed := [CREATE_TABLE_AS TRADE_POINTS_TABLE_NAME csv
                       ["static/Справочник ТТ.csv"]] |}).
Proof.
  apply (loader_keeps_existing_table example_run.files ["static/Справочник ТТ.csv"]
           TRADE_POINTS_TABLE_NAME csv example_run.connection0
           (trade_points_rows example.trade_points)).
  - intros p [<- | []]. vm_compute. eexists. reflexivity.
  - vm_compute. reflexivity.
Defined.




Lemma read_files_concat {R} (mk : list R → relation) fs data_type paths parts :
  (∀ x y, union_all (mk x) (mk y) = Some (mk (x ++ y)%list)) →
  paths ≠ [] →
  Forall2 (fun p rows => fs !! p = Some (data_file data_type (mk rows))) paths parts →
  read_files fs data_type paths = Some (mk (concat parts)).
Proof.
  intros Hmk Hne Hall. induction Hall as [|p rows paths parts Hp Hrest IH]; [done|].
  assert (read_file fs data_type p = Some (mk rows)) as Hread.
  { unfold read_file. rewrite Hp. by rewrite decide_True. }
  destruct paths as [|q paths].
  - apply Forall2_nil_inv_l in Hrest as ->. simpl. by rewrite app_nil_r.
  - change (read_files fs data_type (p :: q :: paths))
      with (match read_file fs data_type p, read_files fs data_type (q :: paths) with
            | Some a, Some b => union_all a b
            | _, _ => None
            end).
    rewrite Hread, IH by done. apply Hmk.
Qed.

Lemma files_listed_exist {R} (mk : list R → relation) (fs : gmap string file)
    data_type paths parts :
  Forall2 (fun p rows => fs !! p = Some (data_file data_type (mk rows))) paths parts →
  ∀ p, In p paths → is_Some (fs !! p).
Proof.
  induction 1 as [|q rows paths parts Hq _ IH]; intros p Hin; [destruct Hin|].
  destruct Hin as [<- | Hin]; [by eexists | by apply IH].
Qed.

Lemma load_overwrite_ok fs paths table_name data_type c r :
  (∀ p, In p paths → is_Some (fs !! p)) →
  read_files fs data_type paths = Some r →
  load_file_to_duckdb fs paths table_name data_type true c
  = (Ok tt,
     {| tables := <[catalog_key table_name := r]> (tables c);
        temp_views := temp_views c;
        executed := executed c ++ [DROP_TABLE_IF_EXISTS table_name;
                                   CREATE_TABLE_AS table_name data_type paths] |}).
Proof.
  intros Hall Hread. rewrite load_run by done. unfold_M.
  rewrite lookup_delete_eq, Hread. simpl.
  by rewrite insert_delete_eq, <- app_assoc.
Qed.



(** * Further properties of the run *)

Lemma main_try_split fs now load_files :
  main_try fs now load_files
  = ((if load_files then load_all fs else mret tt);; transform now).
Proof. reflexivity. Qed.

Lemma transform_run now c input tp ind :
  tables c !! catalog_key INPUT_TABLE_NAME = Some (parquet_data_rows input) →
  tables c !! catalog_key TRADE_POINTS_TABLE_NAME = Some (trade_points_rows tp) →
  tables c !! catalog_key INDICATORS_TABLE_NAME = Some (indicators_rows ind) →
  transform now c
  = (Ok {| csv_name := filename now;
           csv_options := export_options;
           csv_header := Some (csv_writer.record export_options Averages.columns);
           csv_rows :=
             Averages.query
               (combined_view.query (Sales.query ind tp) (Stocks.query input tp)) |},
     {| tables :=
          <[catalog_key "Averages" :=
              Averages_rows
                (Averages.query
                   (combined_view.query (Sales.query ind tp) (Stocks.query input tp)))]>
            (<[catalog_key "Sales" := Sales_rows (Sales.query ind tp)]>
               (<[catalog_key "Stocks" := Stocks_rows (Stocks.query input tp)]> (tables c)));
        temp_views := {[catalog_key "combined_view"]} ∪ temp_views c;
        executed :=
          executed c
          ++ [CREATE_OR_REPLACE_TABLE "Stocks"; CREATE_OR_REPLACE_TABLE "Sales";
              CREATE_OR_REPLACE_TEMP_VIEW "combined_view";
              CREATE_OR_REPLACE_TABLE "Averages";
              COPY_TO "Averages" (filename now)] |}).
Proof.
  intros Hinput Htp Hind.
  unfold transform, execute_Stocks, execute_Sales, execute_Averages,
    execute_combined_view, execute_copy, create_or_replace_table.
  unfold_M. unfold select_Stocks. simpl. rewrite Hinput, Htp. simpl.
  unfold select_Sales. simpl.
  rewrite !(lookup_insert_ne (tables c) (catalog_key "Stocks")) by done. rewrite Hind, Htp. simpl.
  rewrite lookup_insert_eq.
  rewrite (lookup_insert_ne _ (catalog_key "Sales") (catalog_key "Stocks")) by done. rewrite lookup_insert_eq. simpl.
  unfold select_Averages, select_combined_view. simpl.
  rewrite decide_True by set_solver.
  rewrite lookup_insert_eq.
  rewrite (lookup_insert_ne _ (catalog_key "Sales") (catalog_key "Stocks")) by done. rewrite lookup_insert_eq. simpl.
  rewrite lookup_insert_eq. simpl.
  by rewrite <- !app_assoc.
Qed.

Lemma bind_raises {A B} (m : M A) (k : A → M B) c e c' :
  m c = (Raise e, c') → (m ≫= k) c = (Raise e, c').
Proof. intros Hm. unfold mbind, M_bind. by rewrite Hm. Qed.

Lemma bind_returns {A B} (m : M A) (k : A → M B) c a c' :
  m c = (Ok a, c') → (m ≫= k) c = k a c'.
Proof. intros Hm. unfold mbind, M_bind. by rewrite Hm. Qed.

Lemma load_all_paths fs :
  load_all fs
  = (load_file_to_duckdb fs stock_paths INPUT_TABLE_NAME parquet true;;
     load_file_to_duckdb fs [trade_points_path] TRADE_POINTS_TABLE_NAME csv true;;
     load_file_to_duckdb fs indicator_paths INDICATORS_TABLE_NAME parquet true).
Proof. reflexivity. Qed.

(** Without [load_files], on a database that holds the three loaded
    tables, the run reaches the export: it issues the five statements in
    order, replaces [Stocks], [Sales] and [Averages], and writes the rows
    of [Averages] under the name of the clock reading. *)
Theorem main_skip_load_result fs now db input tp ind :
  db !! catalog_key INPUT_TABLE_NAME = Some (parquet_data_rows input) →
  db !! catalog_key TRADE_POINTS_TABLE_NAME = Some (trade_points_rows tp) →
  db !! catalog_key INDICATORS_TABLE_NAME = Some (indicators_rows ind) →
  main fs now false db
  = ({| logged := None;
        output := Some {| csv_name := filename now;
                          csv_options := export_options;
                          csv_header :=
                            Some (csv_writer.record export_options Averages.columns);
                          csv_rows := pipeline input tp ind |};
        statements :=
          [CREATE_OR_REPLACE_TABLE "Stocks"; CREATE_OR_REPLACE_TABLE "Sales";
           CREATE_OR_REPLACE_TEMP_VIEW "combined_view";
           CREATE_OR_REPLACE_TABLE "Averages";
           COPY_TO "Averages" (filename now)] |},
     <[catalog_key "Averages" := Averages_rows (pipeline input tp ind)]>
       (<[catalog_key "Sales" := Sales_rows (Sales.query ind tp)]>
          (<[catalog_key "Stocks" := Stocks_rows (Stocks.query input tp)]> db))).
Proof.
  intros Hinput Htp Hind. unfold main. rewrite main_try_split.
  unfold mbind at 1. unfold M_bind at 1. unfold mret, M_ret.
  by rewrite (transform_run now _ input tp ind).
Qed.

Lemma main_skip_load_result_witness :
  (main ∅ example_run.now false example_run.loaded).2 !! catalog_key "Averages"
  = Some (Averages_rows
            (pipeline example.parquet_data example.trade_points example.indicators)).
Proof.
  rewrite (main_skip_load_result ∅ example_run.now example_run.loaded
             example.parquet_data example.trade_points example.indicators).
  - apply lookup_insert_eq.
  - vm_compute. reflexivity.
  - vm_compute. reflexivity.
  - vm_compute. reflexivity.
Defined.

(** Without [load_files], on a database without the stock table or
    without the directory table, the first statement fails: the run logs
    the engine's error, writes no file and leaves the database as it
    was. *)
Theorem main_skip_load_cold_store fs now db :
  db !! catalog_key INPUT_TABLE_NAME = None ∨ db !! catalog_key TRADE_POINTS_TABLE_NAME = None →
  main fs now false db
  = ({| logged := Some (DuckDBError "CREATE OR REPLACE TABLE Stocks");
        output := None;
        statements := [CREATE_OR_REPLACE_TABLE "Stocks"] |},
     db).
Proof.
  intros Hcold. unfold main, main_try, execute_Stocks, create_or_replace_table.
  unfold_M. unfold select_Stocks. simpl.
  destruct Hcold as [-> | Htp]; [done|].
  rewrite Htp. by destruct (db !! catalog_key INPUT_TABLE_NAME) as [[]|].
Qed.

Lemma main_skip_load_cold_store_witness :
  main example_run.files example_run.now false ∅
  = ({| logged := Some (DuckDBError "CREATE OR REPLACE TABLE Stocks");
        output := None;
        statements := [CREATE_OR_REPLACE_TABLE "Stocks"] |},
     ∅).
Proof.
  apply (main_skip_load_cold_store example_run.files example_run.now ∅).
  left. apply lookup_empty.
Defined.

(** Without [load_files], when the indicator table is missing, the run
    stops at the second statement: [Stocks] is already replaced, nothing
    else is written, and no file is exported. *)
Theorem main_skip_load_missing_indicators fs now db input tp :
  db !! catalog_key INPUT_TABLE_NAME = Some (parquet_data_rows input) →
  db !! catalog_key TRADE_POINTS_TABLE_NAME = Some (trade_points_rows tp) →
  db !! catalog_key INDICATORS_TABLE_NAME = None →
  main fs now false db
  = ({| logged := Some (DuckDBError "CREATE OR REPLACE TABLE Sales");
        output := None;
        statements := [CREATE_OR_REPLACE_TABLE "Stocks"; CREATE_OR_REPLACE_TABLE "Sales"] |},
     <[catalog_key "Stocks" := Stocks_rows (Stocks.query input tp)]> db).
Proof.
  intros Hinput Htp Hind.
  unfold main, main_try, execute_Stocks, execute_Sales, create_or_replace_table.
  unfold_M. unfold select_Stocks. simpl. rewrite Hinput, Htp. simpl.
  unfold select_Sales. simpl.
  rewrite (lookup_insert_ne db (catalog_key "Stocks") (catalog_key INDICATORS_TABLE_NAME)) by done.
  by rewrite Hind.
Qed.

Lemma main_skip_load_missing_indicators_witness :
  (main ∅ example_run.now false (delete (catalog_key INDICATORS_TABLE_NAME) example_run.loaded)).2
  !! catalog_key "Stocks"
  = Some (Stocks_rows (Stocks.query example.parquet_data example.trade_points)).
Proof.
  rewrite (main_skip_load_missing_indicators ∅ example_run.now
             (delete (catalog_key INDICATORS_TABLE_NAME) example_run.loaded)
             example.parquet_data example.trade_points).
  - apply lookup_insert_eq.
  - vm_compute. reflexivity.
  - vm_compute. reflexivity.
  - apply lookup_delete_eq.
Defined.

(** With [load_files], when the eleven files hold rows of the expected
    columns, the run reaches the export: the three source tables hold the
    rows of their files in path order, and [Averages] and the exported
    rows are the result of the four statements on them, whatever the
    database held before. *)
Theorem main_load_files_result fs now db stock_parts tp indicator_parts :
  Forall2 (fun p rows => fs !! p = Some (data_file parquet (parquet_data_rows rows)))
    stock_paths stock_parts →
  fs !! trade_points_path = Some (data_file csv (trade_points_rows tp)) →
  Forall2 (fun p rows => fs !! p = Some (data_file parquet (indicators_rows rows)))
    indicator_paths indicator_parts →
  logged (main fs now true db).1 = None
  ∧ output (main fs now true db).1
    = Some {| csv_name := filename now;
              csv_options := export_options;
              csv_header := Some (csv_writer.record export_options Averages.columns);
              csv_rows := pipeline (concat stock_parts) tp (concat indicator_parts) |}
  ∧ (main fs now true db).2
    = <[catalog_key "Averages" :=
          Averages_rows (pipeline (concat stock_parts) tp (concat indicator_parts))]>
        (<[catalog_key "Sales" := Sales_rows (Sales.query (concat indicator_parts) tp)]>
           (<[catalog_key "Stocks" := Stocks_rows (Stocks.query (concat stock_parts) tp)]>
              (<[catalog_key INDICATORS_TABLE_NAME := indicators_rows (concat indicator_parts)]>
                 (<[catalog_key TRADE_POINTS_TABLE_NAME := trade_points_rows tp]>
                    (<[catalog_key INPUT_TABLE_NAME := parquet_data_rows (concat stock_parts)]> db))))).
Proof.
  intros Hstock Htp Hind. unfold main. rewrite main_try_split, load_all_paths.
  unfold mbind, M_bind.
  rewrite (load_overwrite_ok fs stock_paths _ _ _ (parquet_data_rows (concat stock_parts))).
  2: { by eapply files_listed_exist. }
  2: { by apply read_files_concat. }
  rewrite (load_overwrite_ok fs [trade_points_path] _ _ _ (trade_points_rows tp)).
  2: { intros p [<- | []]. by eexists. }
  2: { simpl. unfold read_file. rewrite Htp. by rewrite decide_True. }
  rewrite (load_overwrite_ok fs indicator_paths _ _ _
             (indicators_rows (concat indicator_parts))).
  2: { by eapply files_listed_exist. }
  2: { by apply read_files_concat. }
  rewrite (transform_run now _ (concat stock_parts) tp (concat indicator_parts)).
  - done.
  - simpl. rewrite !lookup_insert_ne by done. apply lookup_insert_eq.
  - simpl. rewrite lookup_insert_ne by done. apply lookup_insert_eq.
  - simpl. apply lookup_insert_eq.
Qed.

Lemma main_load_files_result_witness :
  (main example_run.files example_run.now true ∅).2 !! catalog_key "Averages"
  = Some (Averages_rows
            (pipeline (concat [example.parquet_data; []; []; []; []])
               example.trade_points
               (concat [example.indicators; []; []; []; []]))).
Proof.
  destruct (main_load_files_result example_run.files example_run.now ∅
              [example.parquet_data; []; []; []; []] example.trade_points
              [example.indicators; []; []; []; []]) as (_ & _ & ->).
  - repeat constructor.
  - vm_compute. reflexivity.
  - repeat constructor.
  - apply lookup_insert_eq.
Defined.

(** With [load_files], when a stock file is missing, the run logs the
    first missing one of the list, issues no statement, and leaves the
    database as it was. *)
Theorem main_missing_stock_file fs now db :
  (∃ p, In p stock_paths ∧ fs !! p = None) →
  ∃ before p after,
    stock_paths = (before ++ p :: after)%list
    ∧ (∀ q, In q before → is_Some (fs !! q))
    ∧ fs !! p = None
    ∧ main fs now true db
      = ({| logged := Some (FileNotFoundError ("File not found: " +:+ p));
            output := None;
            statements := [] |},
         db).
Proof.
  intros Hmissing.
  destruct (check_paths_cases fs stock_paths
              {| tables := db; temp_views := ∅; executed := [] |})
    as [[_ Hall] | (before & p & after & Hpaths & Hbefore & Hp & Hraise)].
  { destruct Hmissing as (p & Hin & Hp). destruct (Hall p Hin). congruence. }
  exists before, p, after. split; [done|]. split; [done|]. split; [done|].
  unfold main. rewrite main_try_split, load_all_paths.
  rewrite (bind_raises _ _ _ (FileNotFoundError ("File not found: " +:+ p))
             {| tables := db; temp_views := ∅; executed := [] |}); [done|].
  apply bind_raises. unfold load_file_to_duckdb. by apply bind_raises.
Qed.

Lemma main_missing_stock_file_witness :
  main (delete "static/data_part_3.parquet"
          (delete "static/data_part_5.parquet" example_run.files))
    example_run.now true example_run.loaded
  = ({| logged := Some (FileNotFoundError "File not found: static/data_part_3.parquet");
        output := None;
        statements := [] |},
     example_run.loaded).
Proof.
  destruct (main_missing_stock_file
              (delete "static/data_part_3.parquet"
                 (delete "static/data_part_5.parquet" example_run.files))
              example_run.now example_run.loaded)
    as (before & p & after & Hpaths & Hbefore & Hp & ->).
  - exists "static/data_part_3.parquet".
    split; [right; right; left; reflexivity | apply lookup_delete_eq].
  - assert (before = ["static/data_part_1.parquet"; "static/data_part_2.parquet"]
            ∧ p = "static/data_part_3.parquet") as [_ ->]; [|reflexivity].
    unfold stock_paths in Hpaths.
    destruct before as [|q1 [|q2 [|q3 before]]].
    + injection Hpaths as <- _. vm_compute in Hp. discriminate Hp.
    + injection Hpaths as _ <- _. vm_compute in Hp. discriminate Hp.
    + by injection Hpaths as <- <- <- _.
    + injection Hpaths as _ _ <- _.
      destruct (Hbefore "static/data_part_3.parquet") as [f Hf];
        [right; right; by left|].
      vm_compute in Hf. discriminate Hf.
Defined.

(** The three loads of a run are separate: when the stock files load and
    the directory file is missing, the stock table is already replaced
    when the run stops, and nothing else has changed. *)
Theorem main_missing_directory_file fs now db stock_parts :
  Forall2 (fun p rows => fs !! p = Some (data_file parquet (parquet_data_rows rows)))
    stock_paths stock_parts →
  fs !! trade_points_path = None →
  main fs now true db
  = ({| logged := Some (FileNotFoundError ("File not found: " +:+ trade_points_path));
        output := None;
        statements := [DROP_TABLE_IF_EXISTS INPUT_TABLE_NAME;
                       CREATE_TABLE_AS INPUT_TABLE_NAME parquet stock_paths] |},
     <[catalog_key INPUT_TABLE_NAME := parquet_data_rows (concat stock_parts)]> db).
Proof.
  intros Hstock Htp.
  assert (main_try fs now true {| tables := db; temp_views := ∅; executed := [] |}
          = (Raise (FileNotFoundError ("File not found: " +:+ trade_points_path)),
             {| tables := <[catalog_key INPUT_TABLE_NAME := parquet_data_rows (concat stock_parts)]> db;
                temp_views := ∅;
                executed := [DROP_TABLE_IF_EXISTS INPUT_TABLE_NAME;
                             CREATE_TABLE_AS INPUT_TABLE_NAME parquet stock_paths] |}))
    as Hrun.
  { rewrite main_try_split, load_all_paths. apply bind_raises.
    erewrite bind_returns.
    2: { apply (load_overwrite_ok fs stock_paths _ _ _
                  (parquet_data_rows (concat stock_parts)));
           [by eapply files_listed_exist | by apply read_files_concat]. }
    apply bind_raises. unfold load_file_to_duckdb. apply bind_raises.
    simpl. by rewrite Htp. }
  unfold main. by rewrite Hrun.
Qed.

Lemma main_missing_directory_file_witness :
  (main (delete trade_points_path example_run.files) example_run.now true ∅).2
  = <[catalog_key INPUT_TABLE_NAME :=
        parquet_data_rows (concat [example.parquet_data; []; []; []; []])]> ∅.
Proof.
  rewrite (main_missing_directory_file (delete trade_points_path example_run.files)
             example_run.now ∅ [example.parquet_data; []; []; []; []]).
  - reflexivity.
  - repeat constructor.
  - apply lookup_delete_eq.
Defined.

(** ** Which tables a run can change *)

Ltac subset_of_names :=
  apply elem_of_subseteq; intros ?;
  rewrite ?elem_of_union, ?elem_of_singleton; tauto.

Section frame.

Lemma touches_only_bind {A B} names (m : M A) (k : A → M B) :
  touches_only names m → (∀ a, touches_only names (k a)) →
  touches_only names (m ≫= k).
Proof.
  intros Hm Hk c key Hkey. unfold mbind, M_bind.
  specialize (Hm c key Hkey). destruct (m c) as [[a|e] c']; simpl in *; [|done].
  by rewrite (Hk a c' key Hkey).
Qed.

Lemma touches_only_mono {A} names names' (m : M A) :
  names ⊆ names' → touches_only names m → touches_only names' m.
Proof. intros Hsub Hm c key Hkey. apply Hm. intros Hin. by apply Hkey, Hsub. Qed.

Lemma load_touches_only fs paths table_name data_type overwrite :
  touches_only {[catalog_key table_name]} (load_file_to_duckdb fs paths table_name data_type overwrite).
Proof.
  intros c key Hkey. apply not_elem_of_singleton in Hkey.
  unfold load_file_to_duckdb. unfold mbind at 1. unfold M_bind at 1.
  destruct (check_paths_result fs paths) as [[[]|e] Hr]; rewrite Hr; [|done].
  destruct overwrite; unfold_M.
  - rewrite lookup_delete_eq. destruct (read_files fs data_type paths); simpl.
    + by rewrite lookup_insert_ne, lookup_delete_ne.
    + by rewrite lookup_delete_ne.
  - destruct (tables c !! catalog_key table_name); [done|].
    destruct (read_files fs data_type paths); simpl; [|done].
    by rewrite lookup_insert_ne.
Qed.

Lemma create_or_replace_touches_only name query :
  touches_only {[catalog_key name]} (create_or_replace_table name query).
Proof.
  intros c key Hkey. apply not_elem_of_singleton in Hkey.
  unfold create_or_replace_table. unfold_M.
  destruct (query _); simpl; [|done]. by rewrite lookup_insert_ne.
Qed.

Lemma execute_combined_view_touches_only : touches_only ∅ execute_combined_view.
Proof.
  intros c key _. unfold execute_combined_view. unfold_M.
  destruct (tables c !! catalog_key "Sales") as [[]|]; try done.
  by destruct (tables c !! catalog_key "Stocks") as [[]|].
Qed.

Lemma execute_copy_touches_only name o : touches_only ∅ (execute_copy name o).
Proof.
  intros c key _. unfold execute_copy. unfold_M.
  by destruct (tables c !! catalog_key "Averages") as [[]|].
Qed.

Lemma transform_touches_only now : touches_only derived_tables (transform now).
Proof.
  unfold transform, derived_tables.
  apply touches_only_bind; [|intros _; apply touches_only_bind;
    [|intros _; apply touches_only_bind;
      [|intros _; apply touches_only_bind; [|intros _]]]].
  - eapply touches_only_mono; [|apply create_or_replace_touches_only]. set_solver.
  - eapply touches_only_mono; [|apply create_or_replace_touches_only]. set_solver.
  - eapply touches_only_mono; [|apply execute_combined_view_touches_only]. set_solver.
  - eapply touches_only_mono; [|apply create_or_replace_touches_only]. set_solver.
  - eapply touches_only_mono; [|apply execute_copy_touches_only]. set_solver.
Qed.

Lemma load_all_touches_only fs :
  touches_only ({[catalog_key INPUT_TABLE_NAME]} ∪ {[catalog_key TRADE_POINTS_TABLE_NAME]}
                ∪ {[catalog_key INDICATORS_TABLE_NAME]}) (load_all fs).
Proof.
  rewrite load_all_paths.
  apply touches_only_bind; [|intros _; apply touches_only_bind; [|intros _]].
  - eapply touches_only_mono; [|apply load_touches_only]. set_solver.
  - eapply touches_only_mono; [|apply load_touches_only]. set_solver.
  - eapply touches_only_mono; [|apply load_touches_only]. set_solver.
Qed.

Lemma main_try_touches_only fs now (load_files : bool) :
  touches_only (if load_files then written_tables else derived_tables)
    (main_try fs now load_files).
Proof.
  rewrite main_try_split. apply touches_only_bind.
  - destruct load_files.
    + eapply touches_only_mono; [|apply load_all_touches_only].
      unfold written_tables. subset_of_names.
    + by intros c key _.
  - intros _. eapply touches_only_mono; [|apply transform_touches_only].
    destruct load_files; unfold written_tables, derived_tables; subset_of_names.
Qed.

End frame.

(** Whatever its outcome, a run changes no table besides the three source
    tables and [Stocks], [Sales], [Averages]; without [load_files] it
    does not change the source tables either.  A table is one of these
    when its name is, up to the case of the letters. *)
Theorem main_frame fs now (load_files : bool) (db : gmap string relation) (name : string) :
  catalog_key name ∉ (if load_files then written_tables else derived_tables) →
  (main fs now load_files db).2 !! catalog_key name = db !! catalog_key name.
Proof.
  intros Hk.
  pose proof (main_try_touches_only fs now load_files
                {| tables := db; temp_views := ∅; executed := [] |}
                (catalog_key name) Hk) as Hframe.
  unfold main. by destruct (main_try _ _ _ _) as [[f|e] c].
Qed.

Lemma main_frame_witness :
  (main ∅ example_run.now false example_run.loaded).2 !! catalog_key "Indicators"
  = example_run.loaded !! catalog_key "Indicators".
Proof.
  apply (main_frame ∅ example_run.now false example_run.loaded "Indicators").
  unfold derived_tables. rewrite !not_elem_of_union, !not_elem_of_singleton.
  repeat split; vm_compute; discriminate.
Defined.

(** ** Running again without loading *)

Lemma transform_oblivious known now1 now2 :
  catalog_key INPUT_TABLE_NAME ∈ known → catalog_key TRADE_POINTS_TABLE_NAME ∈ known →
  catalog_key INDICATORS_TABLE_NAME ∈ known →
  oblivious known same_content (known ∪ {[catalog_key "Stocks"]} ∪ {[catalog_key "Sales"]} ∪ {[catalog_key "Averages"]})
    (transform now1) (transform now2).
Proof.
  intros Hi Ht Hd. unfold transform.
  eapply oblivious_bind.
  { apply create_or_replace_oblivious. intros c1 c2. by apply select_Stocks_agree. }
  intros _ _ _. eapply oblivious_bind.
  { apply create_or_replace_oblivious. intros c1 c2.
    apply select_Sales_agree; apply elem_of_union; by left. }
  intros _ _ _. eapply oblivious_bind.
  { apply execute_combined_view_oblivious.
    - apply elem_of_union. right. by apply elem_of_singleton.
    - apply elem_of_union. left. apply elem_of_union. right. by apply elem_of_singleton. }
  intros _ _ _. eapply oblivious_bind.
  { apply create_or_replace_oblivious. intros c1 c2. apply select_Averages_agree.
    - apply elem_of_union. right. by apply elem_of_singleton.
    - apply elem_of_union. left. apply elem_of_union. right. by apply elem_of_singleton. }
  intros _ _ _. apply execute_copy_oblivious.
  apply elem_of_union. right. by apply elem_of_singleton.
Qed.

Lemma source_names_not_derived k :
  k ∈ ({[catalog_key INPUT_TABLE_NAME]} ∪ {[catalog_key TRADE_POINTS_TABLE_NAME]} ∪ {[catalog_key INDICATORS_TABLE_NAME]}
       : gset string) →
  k ∉ derived_tables.
Proof.
  unfold derived_tables. rewrite !elem_of_union, !elem_of_singleton.
  intros [[-> | ->] | ->] [[H | H] | H]; discriminate H.
Qed.

(** Running the statements after the loading step on the database they
    left behind changes nothing and ends the same way. *)
Lemma transform_again now1 now2 c c2 :
  temp_views c2 = temp_views c →
  tables c2 = tables (transform now1 c).2 →
  tables (transform now2 c2).2 = tables (transform now1 c).2
  ∧ same_outcome same_content ∅ (transform now1 c) (transform now2 c2).
Proof.
  intros Hviews Htables.
  destruct (transform_oblivious
              ({[catalog_key INPUT_TABLE_NAME]} ∪ {[catalog_key TRADE_POINTS_TABLE_NAME]} ∪ {[catalog_key INDICATORS_TABLE_NAME]})
              now1 now2) with (c1 := c) (c2 := c2) as (ws & H1 & H2 & Hout).
  - apply elem_of_union. left. apply elem_of_union. left. by apply elem_of_singleton.
  - apply elem_of_union. left. apply elem_of_union. right. by apply elem_of_singleton.
  - apply elem_of_union. right. by apply elem_of_singleton.
  - split; [done|]. intros k Hk. rewrite Htables.
    symmetry. apply transform_touches_only. by apply source_names_not_derived.
  - split.
    + rewrite H2, Htables, H1. apply apply_writes_idemp.
    + unfold same_outcome in *.
      destruct (transform now1 c).1, (transform now2 c2).1; try done.
      destruct Hout as [Hsame [Hv _]]. split; [done|]. split; [done|].
      intros k Hk. by apply not_elem_of_empty in Hk.
Qed.

(** Without [load_files], a second run on the database of a first one
    leaves it as it is, logs the same and, when the first run exported a
    file, exports one with the same content. *)
Theorem main_skip_load_idempotent fs now1 now2 db :
  (main fs now2 false (main fs now1 false db).2).2 = (main fs now1 false db).2
  ∧ logged (main fs now2 false (main fs now1 false db).2).1
    = logged (main fs now1 false db).1
  ∧ match output (main fs now1 false db).1,
          output (main fs now2 false (main fs now1 false db).2).1 with
    | Some f1, Some f2 => same_content f1 f2
    | None, None => True
    | _, _ => False
    end.
Proof.
  assert (∀ now d, main fs now false d
                   = match transform now {| tables := d; temp_views := ∅; executed := [] |} with
                     | (Ok f, c) => ({| logged := None; output := Some f;
                                        statements := executed c |}, tables c)
                     | (Raise e, c) => ({| logged := Some e; output := None;
                                           statements := executed c |}, tables c)
                     end) as Hmain by done.
  rewrite !Hmain.
  destruct (transform_again now1 now2
              {| tables := db; temp_views := ∅; executed := [] |}
              {| tables := tables (transform now1
                            {| tables := db; temp_views := ∅; executed := [] |}).2;
                 temp_views := ∅; executed := [] |}) as [Htables Hout]; [done | done |].
  unfold same_outcome in Hout.
  destruct (transform now1 _) as [[f1|e1] c1] eqn:Hrun1; simpl in *;
    destruct (transform now2 _) as [[f2|e2] c2] eqn:Hrun2; simpl in *; try done.
  - split; [done|]. split; [done|]. by destruct Hout.
  - by subst.
Qed.

Lemma bind_keeps_views {A B} (m : M A) (k : A → M B) :
  (∀ c, temp_views (m c).2 = temp_views c) →
  (∀ a c, temp_views (k a c).2 = temp_views c) →
  ∀ c, temp_views ((m ≫= k) c).2 = temp_views c.
Proof.
  intros Hm Hk c. unfold mbind, M_bind. specialize (Hm c).
  destruct (m c) as [[a|e] c']; simpl in *; [|done]. by rewrite Hk.
Qed.

Lemma load_overwrite_keeps_views fs paths table_name data_type c :
  temp_views (load_file_to_duckdb fs paths table_name data_type true c).2 = temp_views c.
Proof.
  destruct (load_overwrite_run fs paths table_name data_type) as (r & ws & Hrun & _).
  by destruct (Hrun c) as (_ & _ & Hviews).
Qed.

Lemma load_all_keeps_views fs c : temp_views (load_all fs c).2 = temp_views c.
Proof.
  revert c. rewrite load_all_paths.
  apply bind_keeps_views; [intros c; apply load_overwrite_keeps_views|]. intros _.
  apply bind_keeps_views; [intros c; apply load_overwrite_keeps_views|]. intros _ c.
  apply load_overwrite_keeps_views.
Qed.

(** After a run with [load_files] that reached the export, a run without
    [load_files] leaves the database as it is and exports a file with the
    same content: the loading step can be skipped on a loaded store. *)
Theorem main_skip_load_after_load fs now1 now2 db f :
  output (main fs now1 true db).1 = Some f →
  (main fs now2 false (main fs now1 true db).2).2 = (main fs now1 true db).2
  ∧ logged (main fs now2 false (main fs now1 true db).2).1 = None
  ∧ ∃ f', output (main fs now2 false (main fs now1 true db).2).1 = Some f'
          ∧ same_content f f'.
Proof.
  assert (∀ now d, main fs now false d
                   = match transform now {| tables := d; temp_views := ∅; executed := [] |} with
                     | (Ok f, c) => ({| logged := None; output := Some f;
                                        statements := executed c |}, tables c)
                     | (Raise e, c) => ({| logged := Some e; output := None;
                                           statements := executed c |}, tables c)
                     end) as Hskip by done.
  pose proof (load_all_keeps_views fs {| tables := db; temp_views := ∅; executed := [] |})
    as Hviews.
  destruct (load_all fs _) as [[[]|e] loaded] eqn:Hload; simpl in Hviews.
  2: { unfold main. rewrite main_try_split, (bind_raises _ _ _ e loaded) by done.
       discriminate. }
  assert (main fs now1 true db
          = match transform now1 loaded with
            | (Ok f, c) => ({| logged := None; output := Some f;
                               statements := executed c |}, tables c)
            | (Raise e, c) => ({| logged := Some e; output := None;
                                  statements := executed c |}, tables c)
            end) as Hfirst.
  { unfold main. by rewrite main_try_split, (bind_returns _ _ _ tt loaded). }
  rewrite !Hskip, !Hfirst.
  destruct (transform_again now1 now2 loaded
              {| tables := tables (transform now1 loaded).2;
                 temp_views := ∅; executed := [] |}) as [Htables Hout];
    [by rewrite Hviews | done |].
  unfold same_outcome in Hout.
  destruct (transform now1 loaded) as [[f1|e1] c1] eqn:Hrun1; simpl in *; [|done].
  intros [= ->].
  destruct (transform now2 _) as [[f2|e2] c2] eqn:Hrun2; simpl in *; [|done].
  split; [done|]. split; [done|]. exists f2. split; [done|]. by destruct Hout.
Qed.

Lemma main_skip_load_after_load_witness :
  output (main example_run.files example_run.now true ∅).1 = Some example_run.exported
  ∧ (main example_run.files example_run.later false
       (main example_run.files example_run.now true ∅).2).2
    = (main example_run.files example_run.now true ∅).2.
Proof.
  assert (output (main example_run.files example_run.now true ∅).1
          = Some example_run.exported) as Hrun by (vm_compute; reflexivity).
  split; [exact Hrun|].
  exact (proj1 (main_skip_load_after_load example_run.files example_run.now
                  example_run.later ∅ example_run.exported Hrun)).
Defined.

(** * Further properties of the queries *)

(** ** The outer join *)

Lemma full_outer_join_In {L R} (on : L → R → SQL.bool3) ls rs (j : option L * option R) :
  In j (SQL.full_outer_join on ls rs) ↔
  (∃ l r, j = (Some l, Some r) ∧ In l ls ∧ In r rs ∧ SQL.holds (on l r) = true)
  ∨ (∃ l, j = (Some l, None) ∧ In l ls ∧ ∀ r, In r rs → SQL.holds (on l r) = false)
  ∨ (∃ r, j = (None, Some r) ∧ In r rs ∧ ∀ l, In l ls → SQL.holds (on l r) = false).
Proof.
  unfold SQL.full_outer_join. rewrite in_app_iff, in_flat_map, in_map_iff. split.
  - intros [(l & Hl & Hj) | (r & <- & Hr)].
    + destruct (List.filter (fun r => SQL.holds (on l r)) rs) as [|r0 ms] eqn:Hf.
      * destruct Hj as [<- | []]. right. left. exists l. split; [done|]. split; [done|].
        intros r Hr. apply Bool.not_true_iff_false. intros Hon.
        assert (In r (List.filter (fun r => SQL.holds (on l r)) rs)) as Hin
          by (by apply filter_In).
        by rewrite Hf in Hin.
      * apply in_map_iff in Hj as (r & <- & Hr). rewrite <- Hf in Hr.
        apply filter_In in Hr as [Hr Hon]. left. by exists l, r.
    + apply filter_In in Hr as [Hr Hnone]. right. right. exists r.
      split; [done|]. split; [done|]. intros l Hl.
      apply Bool.not_true_iff_false. intros Hon.
      apply negb_true_iff, Bool.not_true_iff_false in Hnone. apply Hnone.
      apply existsb_exists. by exists l.
  - intros [(l & r & -> & Hl & Hr & Hon) | [(l & -> & Hl & Hnone) | (r & -> & Hr & Hnone)]].
    + left. exists l. split; [done|].
      assert (In r (List.filter (fun r => SQL.holds (on l r)) rs)) as Hin
        by (by apply filter_In).
      destruct (List.filter _ rs) as [|r0 ms]; [done|].
      by apply (in_map (fun r => (Some l, Some r))).
    + left. exists l. split; [done|].
      destruct (List.filter (fun r => SQL.holds (on l r)) rs) as [|r0 ms] eqn:Hf;
        [by left|].
      assert (In r0 (List.filter (fun r => SQL.holds (on l r)) rs)) as Hin
        by (rewrite Hf; by left).
      apply filter_In in Hin as [Hr0 Hon]. by rewrite (Hnone r0 Hr0) in Hon.
    + right. exists r. split; [done|]. apply filter_In. split; [done|].
      apply negb_true_iff, Bool.not_true_iff_false.
      intros (l & Hl & Hon)%existsb_exists. by rewrite (Hnone l Hl) in Hon.
Qed.

Lemma on_holds s st : SQL.holds (combined_view.on s st) = true ↔ same_key s st.
Proof.
  unfold combined_view.on, same_key. rewrite !holds_and3, !holds_eq3. split.
  - intros [[(d & ? & ?) (store & ? & ?)] (item & ? & ?)]. by exists d, store, item.
  - intros (d & store & item & ? & ? & ? & ? & ? & ?). eauto 10.
Qed.

Lemma on_fails s st : SQL.holds (combined_view.on s st) = false ↔ ¬ same_key s st.
Proof. rewrite <- on_holds. symmetry. apply Bool.not_true_iff_false. Qed.

Lemma combined_view_from_In sales stocks j :
  In j (combined_view.from sales stocks) ↔
  (∃ s st, j = (Some s, Some st) ∧ In s sales ∧ In st stocks
           ∧ SQL.holds (combined_view.on s st) = true)
  ∨ (∃ s, j = (Some s, None) ∧ In s sales
          ∧ ∀ st, In st stocks → SQL.holds (combined_view.on s st) = false)
  ∨ (∃ st, j = (None, Some st) ∧ In st stocks
           ∧ ∀ s, In s sales → SQL.holds (combined_view.on s st) = false).
Proof. apply full_outer_join_In. Qed.

(** The rows of the join behind [combined_view]: a sales row and a stock
    row are paired exactly when date, store and item are equal and not
    NULL; a row of either table without a partner appears once, alone;
    no row is made of nothing. *)
Theorem combined_view_join sales stocks :
  (∀ s st, In (Some s, Some st) (combined_view.from sales stocks)
           ↔ In s sales ∧ In st stocks ∧ same_key s st)
  ∧ (∀ s, In (Some s, None) (combined_view.from sales stocks)
          ↔ In s sales ∧ ∀ st, In st stocks → ¬ same_key s st)
  ∧ (∀ st, In (None, Some st) (combined_view.from sales stocks)
           ↔ In st stocks ∧ ∀ s, In s sales → ¬ same_key s st)
  ∧ ¬ In (None, None) (combined_view.from sales stocks).
Proof.
  unfold combined_view.from. split; [|split; [|split]].
  - intros s st. rewrite full_outer_join_In. split.
    + intros [(l & r & [= <- <-] & ? & ? & ?%on_holds) | [(l & [=] & _) | (r & [=] & _)]].
      done.
    + intros (? & ? & ?%on_holds). left. by exists s, st.
  - intros s. rewrite full_outer_join_In. split.
    + intros [(l & r & [=] & _) | [(l & [= <-] & ? & Hnone) | (r & [=] & _)]].
      split; [done|]. intros st Hst. by apply on_fails, Hnone.
    + intros [? Hnone]. right. left. exists s. split; [done|]. split; [done|].
      intros st Hst. by apply on_fails, Hnone.
  - intros st. rewrite full_outer_join_In. split.
    + intros [(l & r & [=] & _) | [(l & [=] & _) | (r & [= <-] & ? & Hnone)]].
      split; [done|]. intros s Hs. by apply on_fails, Hnone.
    + intros [? Hnone]. right. right. exists st. split; [done|]. split; [done|].
      intros s Hs. by apply on_fails, Hnone.
  - rewrite full_outer_join_In.
    intros [(l & r & [=] & _) | [(l & [=] & _) | (r & [=] & _)]].
Qed.

Lemma combined_view_join_witness :
  In (Some example.Sales_row, Some example.Stocks_row)
     (combined_view.from scenario.Sales scenario.Stocks).
Proof.
  destruct (combined_view_join scenario.Sales scenario.Stocks) as (Hpair & _).
  apply Hpair. split; [left; reflexivity|]. split; [left; reflexivity|].
  exists (Date 2025 2 1), "S1", "I1". repeat split.
Defined.

Lemma sales_row_joined sales stocks s :
  In s sales →
  ∃ j, In j (combined_view.from sales stocks) ∧ j.1 = Some s
       ∧ combined_view.Dt (combined_view.select j) = Sales.Dt s
       ∧ combined_view.Store (combined_view.select j) = Sales.Store s
       ∧ combined_view.Item (combined_view.select j) = Sales.Item s.
Proof.
  intros Hs.
  destruct (List.filter (fun st => SQL.holds (combined_view.on s st)) stocks)
    as [|st ms] eqn:Hf.
  - exists (Some s, None). split.
    + apply combined_view_from_In. right. left. exists s. split; [done|]. split; [done|].
      intros st Hst. apply Bool.not_true_iff_false. intros Hon.
      assert (In st (List.filter (fun st => SQL.holds (combined_view.on s st)) stocks))
        as Hin by (by apply filter_In).
      by rewrite Hf in Hin.
    + simpl. by destruct (Sales.Dt s), (Sales.Store s), (Sales.Item s).
  - assert (In st (List.filter (fun st => SQL.holds (combined_view.on s st)) stocks))
      as Hin by (rewrite Hf; by left).
    apply filter_In in Hin as [Hst Hon].
    exists (Some s, Some st). split.
    + apply combined_view_from_In. left. by exists s, st.
    + apply on_holds in Hon as (d & store & item & Hd & _ & Hstore & _ & Hi & _).
      simpl. by rewrite Hd, Hstore, Hi.
Qed.

Lemma stocks_row_joined sales stocks st :
  In st stocks →
  ∃ j, In j (combined_view.from sales stocks) ∧ j.2 = Some st
       ∧ combined_view.Dt (combined_view.select j) = Stocks.Dt st
       ∧ combined_view.Store (combined_view.select j) = Stocks.Store st
       ∧ combined_view.Item (combined_view.select j) = Stocks.Item st.
Proof.
  intros Hst.
  destruct (existsb (fun s => SQL.holds (combined_view.on s st)) sales) eqn:He.
  - apply existsb_exists in He as (s & Hs & Hon).
    exists (Some s, Some st). split.
    + apply combined_view_from_In. left. by exists s, st.
    + apply on_holds in Hon as (d & store & item & Hd & Hd' & Hstore & Hstore' & Hi & Hi').
      simpl. by rewrite Hd, Hd', Hstore, Hstore', Hi, Hi'.
  - exists (None, Some st). split; [|done].
    apply combined_view_from_In. right. right. exists st. split; [done|]. split; [done|].
    intros s Hs. apply Bool.not_true_iff_false. intros Hon.
    apply Bool.not_true_iff_false in He. apply He. apply existsb_exists. by exists s.
Qed.

(** No signal is lost: every sales row with a positive quantity and every
    stock row with a positive quantity has a row in [combined_view] with
    its date, store, item and that quantity. *)
Theorem combined_view_keeps_signals sales stocks :
  (∀ s v, In s sales → Sales.Sales_pc s = Some v → 0 < v →
     ∃ r, In r (combined_view.query sales stocks)
          ∧ combined_view.Dt r = Sales.Dt s
          ∧ combined_view.Store r = Sales.Store s
          ∧ combined_view.Item r = Sales.Item s
          ∧ combined_view.Sales_pc r = Some v
          ∧ combined_view.Sales_rub r = SQL.coalesce (Sales.Sales_rub s) (Some 0))
  ∧ (∀ st v, In st stocks → Stocks.Stock_pc st = Some v → 0 < v →
       ∃ r, In r (combined_view.query sales stocks)
            ∧ combined_view.Dt r = Stocks.Dt st
            ∧ combined_view.Store r = Stocks.Store st
            ∧ combined_view.Item r = Stocks.Item st
            ∧ combined_view.Stock_pc r = Some v).
Proof.
  split.
  - intros s v Hs Hv Hpos.
    destruct (sales_row_joined sales stocks s Hs) as ([l r] & Hj & Hl & Hd & Hstore & Hi).
    simpl in Hl. subst l.
    exists (combined_view.select (Some s, r)). split.
    { apply combined_view_query_In. exists (Some s, r). split; [done|]. split; [|done].
      unfold combined_view.where_. apply holds_or3. left. apply holds_gt_zero.
      by exists v. }
    split; [done|]. split; [done|]. split; [done|]. simpl. by rewrite Hv.
  - intros st v Hst Hv Hpos.
    destruct (stocks_row_joined sales stocks st Hst) as ([l r] & Hj & Hr & Hd & Hstore & Hi).
    simpl in Hr. subst r.
    exists (combined_view.select (l, Some st)). split.
    { apply combined_view_query_In. exists (l, Some st). split; [done|]. split; [|done].
      unfold combined_view.where_. apply holds_or3. right. apply holds_gt_zero.
      by exists v. }
    split; [done|]. split; [done|]. split; [done|]. simpl. by rewrite Hv.
Qed.

Lemma combined_view_keeps_signals_witness :
  ∃ r, In r (combined_view.query scenario.Sales scenario.Stocks)
       ∧ combined_view.Dt r = Stocks.Dt example.Stocks_row
       ∧ combined_view.Store r = Stocks.Store example.Stocks_row
       ∧ combined_view.Item r = Stocks.Item example.Stocks_row
       ∧ combined_view.Stock_pc r = Some 5.
Proof.
  destruct (combined_view_keeps_signals scenario.Sales scenario.Stocks) as (_ & Hstock).
  apply (Hstock example.Stocks_row 5); [left; reflexivity | reflexivity | lia].
Defined.

(** ** Scope of the report *)

(** Through the whole pipeline the report stays within the filter: every
    row of [combined_view] has a store of the target class and a date in
    the window, and every row of [Averages] has a store of the target
    class. *)
Theorem pipeline_rows_in_scope input tp ind :
  (∀ r, In r (combined_view.query (Sales.query ind tp) (Stocks.query input tp)) →
     ∃ s d, combined_view.Store r = Some s
            ∧ outlet_class_set "Маленький склад" tp s
            ∧ combined_view.Dt r = Some d
            ∧ within Stocks.window_start Stocks.window_end d)
  ∧ (∀ a, In a (pipeline input tp ind) →
       ∃ s, Averages.Store a = Some s ∧ outlet_class_set "Маленький склад" tp s).
Proof.
  assert (∀ r, In r (combined_view.query (Sales.query ind tp) (Stocks.query input tp)) →
            ∃ s d, combined_view.Store r = Some s
                   ∧ outlet_class_set "Маленький склад" tp s
                   ∧ combined_view.Dt r = Some d
                   ∧ within Stocks.window_start Stocks.window_end d) as Hrows.
  { intros r (j & Hj & _ & ->)%combined_view_query_In.
    apply combined_view_from_In in Hj
      as [(s & st & -> & Hs & _ & _) | [(s & -> & Hs & _) | (st & -> & Hst & _)]].
    - apply Sales_row_source in Hs as (x & _ & Hw & Hstore & _ & Hd).
      apply Sales_where_holds in Hw as (code & d & Hcode & Hset & Hdate & Hwin).
      exists code, d. simpl. rewrite Hstore, Hd, Hcode, Hdate. done.
    - apply Sales_row_source in Hs as (x & _ & Hw & Hstore & _ & Hd).
      apply Sales_where_holds in Hw as (code & d & Hcode & Hset & Hdate & Hwin).
      exists code, d. simpl. rewrite Hstore, Hd, Hcode, Hdate. done.
    - apply Stocks_query_In in Hst as (x & _ & Hw & ->).
      apply Stocks_where_holds in Hw as (code & d & Hcode & Hset & Hdate & Hwin).
      exists code, d. simpl. rewrite Hcode, Hdate. done. }
  split; [exact Hrows|].
  intros a (store & item & g & Hg & ->)%Averages_query_In.
  apply group_by_nonempty in Hg as (x & _ & Hx & Hkey).
  destruct (Hrows x Hx) as (s & _ & Hs & Hset & _).
  exists s. split; [|done]. simpl.
  unfold Averages.group_key in Hkey. injection Hkey as <- _. done.
Qed.

Lemma pipeline_rows_in_scope_witness :
  In example.Averages_row
     (pipeline example.parquet_data example.trade_points example.indicators)
  ∧ ∃ s, Averages.Store example.Averages_row = Some s
         ∧ outlet_class_set "Маленький склад" example.trade_points s.
Proof.
  assert (In example.Averages_row
            (pipeline example.parquet_data example.trade_points example.indicators))
    as Hin by (vm_compute; left; reflexivity).
  split; [exact Hin|].
  destruct (pipeline_rows_in_scope example.parquet_data example.trade_points
              example.indicators) as (_ & Haverages).
  exact (Haverages example.Averages_row Hin).
Defined.

(** ** Aggregates over groups *)

Section totals.

Lemma total_app (a b : list Z) : SQL.total (a ++ b) = SQL.total a + SQL.total b.
Proof. induction a as [|x a IH]; simpl; [done|]. rewrite IH. lia. Qed.

Lemma total_non_null {A} (f : A → option Z) (l : list A) :
  SQL.total (SQL.non_null (map f l)) = SQL.total (map (fun x => default 0 (f x)) l).
Proof.
  induction l as [|x l IH]; [done|].
  change (map f (x :: l)) with (f x :: map f l).
  change (map (fun x => default 0 (f x)) (x :: l))
    with (default 0 (f x) :: map (fun x => default 0 (f x)) l).
  destruct (f x) as [v|].
  - change (SQL.non_null (Some v :: map f l)) with (v :: SQL.non_null (map f l)).
    simpl. by rewrite IH.
  - change (SQL.non_null (None :: map f l)) with (SQL.non_null (map f l)).
    simpl. by rewrite IH.
Qed.

Lemma sum_default (l : list (option Z)) :
  default 0 (SQL.sum l) = SQL.total (SQL.non_null l).
Proof. unfold SQL.sum. by destruct (SQL.non_null l). Qed.

Lemma total_zero {K} (ks : list K) : SQL.total (map (fun _ => 0) ks) = 0.
Proof. induction ks as [|k ks IH]; simpl; [done | by rewrite IH]. Qed.

Lemma total_add {K} (f g : K → Z) (ks : list K) :
  SQL.total (map (fun k => f k + g k) ks) = SQL.total (map f ks) + SQL.total (map g ks).
Proof. induction ks as [|k ks IH]; simpl; [done|]. rewrite IH. lia. Qed.

Lemma total_indicator {K} `{EqDecision K} (k0 : K) (v : Z) (ks : list K) :
  NoDup ks → In k0 ks →
  SQL.total (map (fun k => if bool_decide (k0 = k) then v else 0) ks) = v.
Proof.
  induction 1 as [|k ks Hk Hnd IH]; intros Hin; [destruct Hin|]. simpl.
  destruct (bool_decide_reflect (k0 = k)) as [->|Hne].
  - rewrite (map_ext_in _ (fun _ => 0)); [rewrite total_zero; lia|].
    intros k' Hk'. rewrite bool_decide_eq_false_2; [done|].
    intros <-. by apply Hk, list_elem_of_In.
  - destruct Hin as [<- | Hin]; [done|]. by rewrite IH.
Qed.

Context {K A : Type} `{EqDecision K} (key : A → K) (h : A → Z).

Lemma total_by_key (ks : list K) (l : list A) :
  NoDup ks → (∀ x, In x l → In (key x) ks) →
  SQL.total (map (fun k => SQL.total
                             (map h (List.filter (fun r => bool_decide (key r = k)) l))) ks)
  = SQL.total (map h l).
Proof.
  intros Hnd. induction l as [|x l IH]; intros Hkeys.
  - simpl. apply total_zero.
  - rewrite (map_ext _ (fun k => (if bool_decide (key x = k) then h x else 0)
                               + SQL.total (map h (List.filter
                                                     (fun r => bool_decide (key r = k)) l)))).
    + rewrite total_add, total_indicator, IH; [done | | done |].
      * intros y Hy. apply Hkeys. by right.
      * apply Hkeys. by left.
    + intros k. simpl. by destruct (bool_decide (key x = k)).
Qed.

Lemma group_by_total (l : list A) :
  SQL.total (map (fun g => SQL.total (map h g.2)) (SQL.group_by key l))
  = SQL.total (map h l).
Proof.
  unfold SQL.group_by. rewrite map_map. simpl. apply total_by_key.
  - apply NoDup_remove_dups.
  - intros x Hx. apply list_elem_of_In, elem_of_remove_dups, list_elem_of_In.
    by apply in_map.
Qed.

End totals.

Lemma total_ones {A} (l : list A) : SQL.total (map (fun _ => 1) l) = Z.of_nat (length l).
Proof. induction l as [|x l IH]; [done|]. simpl length. simpl. rewrite IH. lia. Qed.

Lemma group_by_count {K A} `{EqDecision K} (key : A → K) (l : list A) :
  SQL.total (map (fun g => SQL.count_star g.2) (SQL.group_by key l)) = Z.of_nat (length l).
Proof.
  rewrite <- (total_ones l), <- (group_by_total key (fun _ => 1) l).
  f_equal. apply map_ext. intros g. unfold SQL.count_star. by rewrite total_ones.
Qed.

Lemma sum_column_total {A} (f : A → option Z) (g : list A) :
  default 0 (SQL.sum (map f g)) = SQL.total (map (fun x => default 0 (f x)) g).
Proof. by rewrite sum_default, total_non_null. Qed.

(** Grouping loses and repeats nothing: the totals of sales units and of
    sales currency over the rows of [Averages] are the totals over
    [combined_view], and the day counts add up to its number of rows. *)
Theorem Averages_conserves_totals cv :
  column_total Averages.Total_sales_pc (Averages.query cv)
  = column_total combined_view.Sales_pc cv
  ∧ column_total Averages.Total_sales_rub (Averages.query cv)
    = column_total combined_view.Sales_rub cv
  ∧ SQL.total (map Averages.Days_with_data (Averages.query cv)) = Z.of_nat (length cv).
Proof.
  unfold column_total, Averages.query. rewrite !total_non_null, !map_map.
  split; [|split].
  - rewrite <- (group_by_total Averages.group_key
                  (fun x => default 0 (combined_view.Sales_pc x)) cv).
    f_equal. apply map_ext. intros [[store item] g]. simpl. apply sum_column_total.
  - rewrite <- (group_by_total Averages.group_key
                  (fun x => default 0 (combined_view.Sales_rub x)) cv).
    f_equal. apply map_ext. intros [[store item] g]. simpl. apply sum_column_total.
  - rewrite <- (group_by_count Averages.group_key cv).
    f_equal. apply map_ext. by intros [[store item] g].
Qed.

(** The daily sums of [Sales] add up to the totals of the indicator
    records that pass the filter, in units and in currency. *)
Theorem Sales_conserves_totals ind tp :
  column_total Sales.Sales_pc (Sales.query ind tp)
  = column_total indicators.Отгрузки_шт
      (List.filter (fun x => SQL.holds (Sales.where_ tp x)) ind)
  ∧ column_total Sales.Sales_rub (Sales.query ind tp)
    = column_total indicators.Отгрузки_руб
        (List.filter (fun x => SQL.holds (Sales.where_ tp x)) ind).
Proof.
  unfold column_total, Sales.query. rewrite !total_non_null, !map_map. split.
  - rewrite <- (group_by_total Sales.group_key
                  (fun x => default 0 (indicators.Отгрузки_шт x))).
    f_equal. apply map_ext. intros [[[store item] d] g]. simpl. apply sum_column_total.
  - rewrite <- (group_by_total Sales.group_key
                  (fun x => default 0 (indicators.Отгрузки_руб x))).
    f_equal. apply map_ext. intros [[[store item] d] g]. simpl. apply sum_column_total.
Qed.

(** ** The other columns of [Averages] *)

Lemma foldr_max_spec v vs :
  (foldr Z.max v vs = v ∨ In (foldr Z.max v vs) vs)
  ∧ v ≤ foldr Z.max v vs
  ∧ ∀ x, In x vs → x ≤ foldr Z.max v vs.
Proof.
  induction vs as [|y vs (Hin & Hv & Hall)]; simpl.
  - split; [by left|]. split; [lia|]. intros x [].
  - split; [|split].
    + destruct (Z.max_spec y (foldr Z.max v vs)) as [[_ ->] | [_ ->]].
      * destruct Hin as [-> | Hin]; [by left | right; by right].
      * right. by left.
    + lia.
    + intros x [<- | Hx]; [lia|]. specialize (Hall x Hx). lia.
Qed.

Lemma max_all_some vs :
  vs ≠ [] →
  ∃ m, SQL.max (map Some vs) = Some m ∧ In m vs ∧ ∀ x, In x vs → x ≤ m.
Proof.
  intros Hne. unfold SQL.max. rewrite non_null_all_some.
  destruct vs as [|v vs]; [done|].
  destruct (foldr_max_spec v vs) as (Hin & Hv & Hall).
  exists (foldr Z.max v vs). split; [done|]. split.
  - destruct Hin as [-> | Hin]; [by left | by right].
  - intros x [<- | Hx]; [done | by apply Hall].
Qed.

Lemma total_positive vs : vs ≠ [] → (∀ v, In v vs → 0 < v) → 0 < SQL.total vs.
Proof.
  induction vs as [|v vs IH]; [done|]. intros _ Hall. simpl.
  assert (0 < v) by (apply Hall; by left).
  destruct vs as [|w vs]; [simpl; lia|].
  assert (0 < SQL.total (w :: vs)); [|lia].
  apply IH; [done|]. intros x Hx. apply Hall. by right.
Qed.

Lemma Averages_row_group sales stocks a :
  In a (Averages.query (combined_view.query sales stocks)) →
  ∃ x group,
    group = List.filter (fun r => bool_decide (Averages.group_key r
                                               = (Averages.Store a, Averages.Item a)))
              (combined_view.query sales stocks)
    ∧ In x group
    ∧ (∀ r, In r group → In r (combined_view.query sales stocks))
    ∧ Averages.Total_sales_pc a = SQL.sum (map combined_view.Sales_pc group)
    ∧ Averages.Total_sales_rub a = SQL.sum (map combined_view.Sales_rub group)
    ∧ Averages.Avg_sales_rub a = SQL.avg (map combined_view.Sales_rub group)
    ∧ Averages.Days_with_data a = SQL.count_star group
    ∧ Averages.Max_stock_pc a = SQL.max (map combined_view.Stock_pc group).
Proof.
  intros (store & item & g & Hg & ->)%Averages_query_In. simpl.
  pose proof Hg as (x & Hx & _ & _)%group_by_nonempty.
  apply group_by_In in Hg as [_ ->].
  exists x. eexists. split; [done|]. split; [done|]. split; [|done].
  by intros r [Hr _]%filter_In.
Qed.

(** [Max_stock_pc] is the largest stock quantity of the rows of the pair
    and is reached by one of them; and every row of [Averages] shows
    activity: a positive maximum stock or a positive total of sales
    units. *)
Theorem Averages_max_stock sales stocks a :
  In a (Averages.query (combined_view.query sales stocks)) →
  ∃ m, Averages.Max_stock_pc a = Some m
       ∧ (∀ r, In r (combined_view.query sales stocks) →
            Averages.group_key r = (Averages.Store a, Averages.Item a) →
            ∃ v, combined_view.Stock_pc r = Some v ∧ v ≤ m)
       ∧ (∃ r, In r (combined_view.query sales stocks)
               ∧ Averages.group_key r = (Averages.Store a, Averages.Item a)
               ∧ combined_view.Stock_pc r = Some m)
       ∧ (0 < m ∨ ∃ t, Averages.Total_sales_pc a = Some t ∧ 0 < t).
Proof.
  intros (x & group & Hgroup & Hx & Hsub & Htotal & _ & _ & _ & Hmaxcol)%Averages_row_group.
  destruct (map_all_some combined_view.Stock_pc group) as (ks & Hks & Hklen).
  { intros r Hr. by apply (combined_view_non_null sales stocks), Hsub. }
  destruct (map_all_some combined_view.Sales_pc group) as (vs & Hvs & Hvlen).
  { intros r Hr. by apply (combined_view_non_null sales stocks), Hsub. }
  assert (ks ≠ []) as Hkne by (intros ->; by destruct group).
  assert (vs ≠ []) as Hvne by (intros ->; by destruct group).
  destruct (max_all_some ks Hkne) as (m & Hmax & Hm & Hle).
  assert (∀ r, In r group ↔ In r (combined_view.query sales stocks)
                            ∧ Averages.group_key r = (Averages.Store a, Averages.Item a))
    as Hmem.
  { intros r. rewrite Hgroup, filter_In. by rewrite bool_decide_eq_true. }
  exists m. rewrite Hmaxcol, Hks. split; [done|]. split; [|split].
  - intros r Hr Hkey. assert (In r group) as Hin by (by apply Hmem).
    assert (In (combined_view.Stock_pc r) (map Some ks)) as Hv
      by (rewrite <- Hks; by apply in_map).
    apply in_map_iff in Hv as (v & Hv & Hvin). exists v. split; [done | by apply Hle].
  - assert (In (Some m) (map combined_view.Stock_pc group)) as Hr
      by (rewrite Hks; by apply in_map).
    apply in_map_iff in Hr as (r & Hr & Hin). exists r.
    apply Hmem in Hin as [? ?]. done.
  - destruct (decide (0 < m)) as [|Hm0]; [by left|]. right.
    exists (SQL.total vs). split.
    { rewrite Htotal, Hvs. by apply sum_all_some. }
    apply total_positive; [done|]. intros v Hv.
    assert (In (Some v) (map combined_view.Sales_pc group)) as Hr
      by (rewrite Hvs; by apply in_map).
    apply in_map_iff in Hr as (r & Hr & Hin).
    assert (has_signal r) as (s & k & Hs & Hk & Hpos).
    { apply Hsub, combined_view_query_In in Hin as (j & _ & Hw & ->).
      by apply where_holds_signal. }
    assert (In (Some k) (map Some ks)) as Hkin by (rewrite <- Hks, <- Hk; by apply in_map).
    apply in_map_iff in Hkin as (k' & [= ->] & Hkin). specialize (Hle k Hkin).
    rewrite Hs in Hr. injection Hr as <-. lia.
Qed.

Lemma Averages_max_stock_witness :
  In example.Averages_row
     (Averages.query (combined_view.query scenario.Sales scenario.Stocks))
  ∧ ∃ m, Averages.Max_stock_pc example.Averages_row = Some m
         ∧ (0 < m ∨ ∃ t, Averages.Total_sales_pc example.Averages_row = Some t ∧ 0 < t).
Proof.
  assert (In example.Averages_row
            (Averages.query (combined_view.query scenario.Sales scenario.Stocks)))
    as Hin by (vm_compute; left; reflexivity).
  split; [exact Hin|].
  destruct (Averages_max_stock scenario.Sales scenario.Stocks example.Averages_row Hin)
    as (m & Hm & _ & _ & Hsignal).
  exists m. split; [exact Hm | exact Hsignal].
Defined.



(** ** What the two derived tables hold *)

(** [Stocks] holds exactly the stock records of a store of the target
    class dated from 2025-01-14 to 2025-03-31, both days included, with
    item and quantity as they are; records with a NULL store or date are
    left out.  Records are taken one by one, in feed order: a record kept
    twice in the feed is kept twice in the table. *)
Theorem Stocks_keeps_exactly tp :
  (∀ input r,
     In r (Stocks.query input tp) ↔
     ∃ x s d, In x input
              ∧ parquet_data.final_store_id x = Some s
              ∧ outlet_class_set "Маленький склад" tp s
              ∧ parquet_data.dt x = Some d
              ∧ within (Date 2025 1 14) (Date 2025 3 31) d
              ∧ r = {| Stocks.Store := Some s;
                       Stocks.Item := parquet_data.final_item_id x;
                       Stocks.Dt := Some d;
                       Stocks.Stock_pc := parquet_data.stock x |})
  ∧ Stocks.query [] tp = []
  ∧ (∀ a b, Stocks.query (a ++ b) tp = (Stocks.query a tp ++ Stocks.query b tp)%list)
  ∧ (∀ x s d,
       parquet_data.final_store_id x = Some s →
       outlet_class_set "Маленький склад" tp s →
       parquet_data.dt x = Some d →
       within (Date 2025 1 14) (Date 2025 3 31) d →
       Stocks.query [x] tp
       = [ {| Stocks.Store := Some s;
              Stocks.Item := parquet_data.final_item_id x;
              Stocks.Dt := Some d;
              Stocks.Stock_pc := parquet_data.stock x |} ])
  ∧ (∀ x,
       ¬ (∃ s d, parquet_data.final_store_id x = Some s
                 ∧ outlet_class_set "Маленький склад" tp s
                 ∧ parquet_data.dt x = Some d
                 ∧ within (Date 2025 1 14) (Date 2025 3 31) d) →
       Stocks.query [x] tp = []).
Proof.
  split; [|split; [done|split; [|split]]].
  - intros input r. rewrite Stocks_query_In. split.
    + intros (x & Hx & Hw & ->).
      apply Stocks_where_holds in Hw as (s & d & Hs & Hset & Hd & Hwin).
      exists x, s, d. unfold Stocks.select. rewrite Hs, Hd. done.
    + intros (x & s & d & Hx & Hs & Hset & Hd & Hwin & ->).
      exists x. split; [done|]. split.
      * apply Stocks_where_holds. by exists s, d.
      * unfold Stocks.select. by rewrite Hs, Hd.
  - intros a b. unfold Stocks.query. by rewrite List.filter_app, map_app.
  - intros x s d Hs Hset Hd Hwin. unfold Stocks.query. simpl.
    assert (SQL.holds (Stocks.where_ tp x) = true) as ->.
    { apply Stocks_where_holds. by exists s, d. }
    simpl. unfold Stocks.select. by rewrite Hs, Hd.
  - intros x Hnot. unfold Stocks.query. simpl.
    destruct (SQL.holds (Stocks.where_ tp x)) eqn:Hw; [|done].
    apply Stocks_where_holds in Hw. contradiction.
Qed.

Lemma Stocks_keeps_exactly_witness :
  Stocks.query
    ([ parquet_data.Row (Some "S1") (Some "I1") (Some (Date 2025 3 31)) (Some 5) ]
     ++ [ parquet_data.Row (Some "S1") (Some "I1") (Some (Date 2025 3 31)) (Some 5) ])
    example.trade_points
  = [ Stocks.Row (Some "S1") (Some "I1") (Some (Date 2025 3 31)) (Some 5);
      Stocks.Row (Some "S1") (Some "I1") (Some (Date 2025 3 31)) (Some 5) ].
Proof.
  destruct (Stocks_keeps_exactly example.trade_points) as (_ & _ & Happ & Hkept & _).
  rewrite Happ.
  rewrite (Hkept _ "S1" (Date 2025 3 31)); [reflexivity | reflexivity | | reflexivity |].
  - exists (trade_points.Row (Some "S1") (Some "Маленький склад")).
    split; [left; reflexivity | split; reflexivity].
  - split; right; (split; [reflexivity|]); [left | right; split; [reflexivity|]];
      vm_compute; congruence.
Defined.

Lemma sum_none_iff (l : list (option Z)) :
  SQL.sum l = None ↔ ∀ v, In v l → v = None.
Proof.
  unfold SQL.sum. induction l as [|[v|] l IH].
  - simpl. split; [intros _ v [] | done].
  - change (SQL.non_null (Some v :: l)) with (v :: SQL.non_null l).
    split; [discriminate|]. intros Hall. by specialize (Hall (Some v) (or_introl eq_refl)).
  - change (SQL.non_null (None :: l)) with (SQL.non_null l). rewrite IH. split.
    + intros Hall v [<- | Hv]; [done | by apply Hall].
    + intros Hall v Hv. apply Hall. by right.
Qed.

(** A row of [Sales] sums the indicator records of its store, item and
    calendar date that pass the filter; there is at least one, and the
    sum is NULL, not zero, exactly when all of them have a NULL
    quantity. *)
Theorem Sales_row_sums ind tp r :
  In r (Sales.query ind tp) →
  ∃ x records,
    records
    = List.filter (fun x => bool_decide (Sales.group_key x
                                         = (Sales.Store r, Sales.Item r, Sales.Dt r)))
        (List.filter (fun x => SQL.holds (Sales.where_ tp x)) ind)
    ∧ In x records
    ∧ Sales.Sales_pc r = SQL.sum (map indicators.Отгрузки_шт records)
    ∧ Sales.Sales_rub r = SQL.sum (map indicators.Отгрузки_руб records)
    ∧ (Sales.Sales_pc r = None ↔ ∀ y, In y records → indicators.Отгрузки_шт y = None).
Proof.
  intros (store & item & d & g & Hg & ->)%Sales_query_In. simpl.
  pose proof Hg as (x & Hx & _ & _)%group_by_nonempty.
  apply group_by_In in Hg as [_ ->].
  exists x. eexists. split; [done|]. split; [done|]. split; [done|]. split; [done|].
  rewrite sum_none_iff. split.
  - intros Hall y Hy. apply Hall. by apply in_map.
  - intros Hall v (y & <- & Hy)%in_map_iff. by apply Hall.
Qed.

Lemma Sales_row_sums_witness :
  In example.Sales_row (Sales.query example.indicators example.trade_points)
  ∧ ∃ records,
      Sales.Sales_pc example.Sales_row = SQL.sum (map indicators.Отгрузки_шт records)
      ∧ Sales.Sales_rub example.Sales_row = SQL.sum (map indicators.Отгрузки_руб records).
Proof.
  assert (In example.Sales_row (Sales.query example.indicators example.trade_points))
    as Hin by (vm_compute; left; reflexivity).
  split; [exact Hin|].
  destruct (Sales_row_sums example.indicators example.trade_points example.Sales_row Hin)
    as (x & records & _ & _ & Hpc & Hrub & _).
  exists records. split; [exact Hpc | exact Hrub].
Defined.
